(** * node-pbkdf2: password hashing with self-describing records

    A shallow embedding of [index.js] and the properties of its record
    codec, token generator, constructor and encrypt/check protocol.

    The JavaScript values the program touches are embedded as an inductive
    type, the built-ins it calls ([split], [parseInt], [slice], string
    concatenation, [||], [Buffer.toString('base64')], [crypto.randomBytes])
    are written out as functions, and [crypto.pbkdf2] is an interface
    member: the program is verified for every key-derivation function that
    honours the contract stated in [PBKDF2Contract].  PBKDF2 with
    HMAC-SHA-512 is written out as well, shown to honour the contract, and
    used for the concrete runs. *)

From Stdlib Require Import ZArith NArith List String Ascii Bool Lia.
From Stdlib Require Import DecimalString DecimalZ DecimalPos.
From Stdlib.Strings Require Byte.
Import ListNotations.

Set Warnings "-register-all".

Local Open Scope string_scope.
Local Open Scope Z_scope.

Definition byte : Type := Byte.byte.

(** ** JavaScript values *)

(** Numbers.  The program only ever holds counts and lengths, so the
    embedding keeps the integer-valued numbers and [NaN].  [Int z] is
    rendered in plain decimal, which is what JavaScript prints for every
    safe integer (magnitude at most [MAX_SAFE_INTEGER]). *)
Inductive number : Type :=
| NaN
| Int (z : Z).

Inductive value : Type :=
| VUndefined
| VNull
| VBool (b : bool)
| VNumber (n : number)
| VString (s : string)
| VObject (props : list (string * value)).

Definition MAX_SAFE_INTEGER : Z := 2 ^ 53 - 1.

(** Truthiness: [undefined], [null], [false], [0], [NaN] and the empty
    string are falsy, everything else is truthy. *)
Definition ToBoolean (v : value) : bool :=
  match v with
  | VUndefined | VNull => false
  | VBool b => b
  | VNumber NaN => false
  | VNumber (Int z) => negb (z =? 0)
  | VString s => negb (s =? "")%string
  | VObject _ => true
  end.

(** [a || b] *)
Definition or_else (a b : value) : value :=
  if ToBoolean a then a else b.

(** [o.key]: own property of an object literal, [undefined] when absent.
    Primitives have none of the four option names on their prototypes. *)
Fixpoint lookup_prop (key : string) (props : list (string * value)) : value :=
  match props with
  | [] => VUndefined
  | (k, v) :: rest => if (k =? key)%string then v else lookup_prop key rest
  end.

Definition Get (o : value) (key : string) : value :=
  match o with
  | VObject props => lookup_prop key props
  | _ => VUndefined
  end.

Definition Number_toString (n : number) : string :=
  match n with
  | NaN => "NaN"
  | Int z => NilZero.string_of_int (Z.to_int z)
  end.

(** The conversion applied by [+] when the other operand is a string. *)
Definition ToString (v : value) : string :=
  match v with
  | VUndefined => "undefined"
  | VNull => "null"
  | VBool true => "true"
  | VBool false => "false"
  | VNumber n => Number_toString n
  | VString s => s
  | VObject _ => "[object Object]"
  end.

(** [s === v] for a string [s]. *)
Definition StrictEquals (s : string) (v : value) : bool :=
  match v with
  | VString t => (s =? t)%string
  | _ => false
  end.

(** ** String built-ins *)

(** [s.split(sep)] for a non-empty separator scans left to right and cuts
    at every match, resuming after the separator; [skip] counts the
    separator characters still to be passed over. *)
Fixpoint split_from (sep : string) (skip : nat) (cur s : string) : list string :=
  match s with
  | EmptyString => [cur]
  | String c rest =>
      match skip with
      | S k => split_from sep k cur rest
      | O =>
          if prefix sep s
          then cur :: split_from sep (String.length sep - 1) "" rest
          else split_from sep 0 (cur ++ String c "") rest
      end
  end.

Definition String_split (s sep : string) : list string :=
  if (sep =? "")%string
  then map (fun c => String c "") (list_ascii_of_string s)
  else split_from sep 0 "" s.

(** [items[i]] *)
Definition item (items : list string) (i : nat) : value :=
  match nth_error items i with
  | Some s => VString s
  | None => VUndefined
  end.

Definition is_white_space (c : ascii) : bool :=
  let n := N_of_ascii c in
  ((9 <=? n) && (n <=? 13) || (n =? 32) || (n =? 160))%N.

Definition is_digit (c : ascii) : bool :=
  let n := N_of_ascii c in ((48 <=? n) && (n <=? 57))%N.

Fixpoint trim_start (s : string) : string :=
  match s with
  | EmptyString => ""
  | String c rest => if is_white_space c then trim_start rest else s
  end.

Fixpoint digit_prefix (s : string) : string :=
  match s with
  | EmptyString => ""
  | String c rest => if is_digit c then String c (digit_prefix rest) else ""
  end.

Definition parse_digits (s : string) : number :=
  let ds := digit_prefix s in
  if (ds =? "")%string then NaN
  else match NilEmpty.uint_of_string ds with
       | Some d => Int (Z.of_uint d)
       | None => NaN
       end.

Definition negate (n : number) : number :=
  match n with
  | NaN => NaN
  | Int z => Int (- z)
  end.

(** [parseInt(input, 10)]: convert to a string, drop leading white space,
    read an optional sign and the longest run of decimal digits; [NaN]
    when there is no digit. *)
Definition parseInt (input : value) : number :=
  let s := trim_start (ToString input) in
  match s with
  | EmptyString => NaN
  | String c rest =>
      if Ascii.eqb c "-" then negate (parse_digits rest)
      else if Ascii.eqb c "+" then parse_digits rest
      else parse_digits s
  end.

(** [s.includes(sub)] and [s.endsWith(sub)] *)
Fixpoint includes (s sub : string) : bool :=
  prefix sub s ||
  match s with
  | EmptyString => false
  | String _ rest => includes rest sub
  end.

Definition endsWith (s sub : string) : bool :=
  let n := String.length s in
  let m := String.length sub in
  (m <=? n)%nat && (substring (n - m) m s =? sub)%string.

(** ** Buffers and base64 *)

Definition is_upper (c : ascii) : bool :=
  let n := N_of_ascii c in ((65 <=? n) && (n <=? 90))%N.

Definition is_lower (c : ascii) : bool :=
  let n := N_of_ascii c in ((97 <=? n) && (n <=? 122))%N.

(** The sixty-four characters of standard base64, without the padding
    sign. *)
Definition is_base64_char (c : ascii) : bool :=
  is_upper c || is_lower c || is_digit c ||
  Ascii.eqb c "+" || Ascii.eqb c "/".

Definition base64_alphabet : string :=
  "ABCDEFGHIJKLMNOPQRSTUVWXYZabcdefghijklmnopqrstuvwxyz0123456789+/".

Definition sextet_char (n : N) : ascii :=
  match String.get (N.to_nat n) base64_alphabet with
  | Some c => c
  | None => "="%char
  end.

(** The four six-bit groups cut from three bytes [x], [y], [z]. *)
Definition sextet0 (x : N) : N := N.shiftr x 2.
Definition sextet1 (x y : N) : N := N.lor (N.shiftl (N.land x 3) 4) (N.shiftr y 4).
Definition sextet2 (y z : N) : N := N.lor (N.shiftl (N.land y 15) 2) (N.shiftr z 6).
Definition sextet3 (z : N) : N := N.land z 63.

(** [buf.toString('base64')]: three bytes become four characters; a final
    group of one or two bytes is completed with zero bits and padded with
    ['=']. *)
Fixpoint Buffer_toString_base64 (buf : list byte) : string :=
  match buf with
  | [] => ""
  | [a] =>
      let x := Byte.to_N a in
      String (sextet_char (sextet0 x))
        (String (sextet_char (sextet1 x 0)) "==")
  | [a; b] =>
      let x := Byte.to_N a in
      let y := Byte.to_N b in
      String (sextet_char (sextet0 x))
        (String (sextet_char (sextet1 x y))
           (String (sextet_char (sextet2 y 0)) "="))
  | a :: b :: c :: rest =>
      let x := Byte.to_N a in
      let y := Byte.to_N b in
      let z := Byte.to_N c in
      String (sextet_char (sextet0 x))
        (String (sextet_char (sextet1 x y))
           (String (sextet_char (sextet2 y z))
              (String (sextet_char (sextet3 z))
                 (Buffer_toString_base64 rest))))
  end.

(** The inverse table and the decoder ([Buffer.from(s, 'base64')] on
    well-formed input), used to show that the encoding loses nothing. *)
Definition char_sextet (c : ascii) : N :=
  let n := N_of_ascii c in
  if ((65 <=? n) && (n <=? 90))%N then (n - 65)%N
  else if ((97 <=? n) && (n <=? 122))%N then (n - 71)%N
  else if ((48 <=? n) && (n <=? 57))%N then (n + 4)%N
  else if (n =? 43)%N then 62%N
  else 63%N.

Definition byte_of_N (n : N) : byte :=
  match Byte.of_N n with
  | Some b => b
  | None => Byte.x00
  end.

Definition octet0 (s0 s1 : N) : N := N.lor (N.shiftl s0 2) (N.shiftr s1 4).
Definition octet1 (s1 s2 : N) : N := N.lor (N.shiftl (N.land s1 15) 4) (N.shiftr s2 2).
Definition octet2 (s2 s3 : N) : N := N.lor (N.shiftl (N.land s2 3) 6) s3.

Fixpoint base64_decode (s : string) : list byte :=
  match s with
  | String c0 (String c1 (String c2 (String c3 rest))) =>
      let s0 := char_sextet c0 in
      let s1 := char_sextet c1 in
      let s2 := char_sextet c2 in
      let s3 := char_sextet c3 in
      if Ascii.eqb c2 "=" then [byte_of_N (octet0 s0 s1)]
      else if Ascii.eqb c3 "="
      then [byte_of_N (octet0 s0 s1); byte_of_N (octet1 s1 s2)]
      else byte_of_N (octet0 s0 s1) :: byte_of_N (octet1 s1 s2) ::
           byte_of_N (octet2 s2 s3) :: base64_decode rest
  | _ => []
  end.

(** The numbers below [k], and the bit-level facts about one group that
    are settled by running through all byte values. *)
Definition below (k : nat) : list N := map N.of_nat (seq 0 k).

Definition check_first_pair (x y : N) : bool :=
  ((sextet0 x <? 64) && (sextet1 x y <? 64) &&
   (octet0 (sextet0 x) (sextet1 x y) =? x) &&
   (N.land (sextet1 x y) 15 =? N.shiftr y 4))%N.

Definition check_second_pair (y z : N) : bool :=
  ((sextet2 y z <? 64) && (sextet3 z <? 64) &&
   (N.shiftr (sextet2 y z) 2 =? N.land y 15) &&
   (octet2 (sextet2 y z) (sextet3 z) =? z) &&
   (N.lor (N.shiftl (N.shiftr y 4) 4) (N.land y 15) =? y))%N.

Definition check_table (n : N) : bool :=
  is_base64_char (sextet_char n) && (char_sextet (sextet_char n) =? n)%N.

(** [new Buffer(key, 'binary')] on a buffer is a copy of its bytes. *)
Definition new_Buffer (data : list byte) : list byte := data.

(** ** Effects: the entropy source, the log of key derivations, the global
    variable, exceptions and promises *)

(** What can be thrown or given as the reason of a rejection: error
    objects of three kinds, and a plain string ([Reason]). *)
Inductive exn : Type :=
| TypeError (msg : string)
| RangeError (msg : string)
| Error (msg : string)
| Reason (msg : string).

(** One invocation of the key-derivation function, with its arguments. *)

Record KdfCall : Type := mkKdfCall {
  call_password : value;
  call_salt : value;
  call_iterations : value;
  call_keylen : value;
  call_digest : value
}.

(** The world outside the program: an endless supply of random bytes, the
    key derivations run so far, most recent first, and the one global
    variable the program writes, [derivedKey], which holds a buffer once
    it has been assigned and is [None] while it is not defined. *)
Record World : Type := mkWorld {
  entropy : nat -> byte;
  kdf_calls : list KdfCall;
  global_derivedKey : option (list byte)
}.

Inductive completion (A : Type) : Type :=
| Normal (a : A)
| Throw (e : exn).

Inductive settled (A : Type) : Type :=
| Fulfilled (a : A)
| Rejected (reason : exn).

Arguments Normal {A} a.
Arguments Throw {A} e.
Arguments Fulfilled {A} a.
Arguments Rejected {A} reason.

(** Synchronous code and promise executors, both threading the world. *)
Definition M (A : Type) : Type := World -> completion A * World.
Definition Promise (A : Type) : Type := World -> settled A * World.

Definition ret {A} (a : A) : M A := fun w => (Normal a, w).
Definition throw {A} (e : exn) : M A := fun w => (Throw e, w).
Definition bind {A B} (m : M A) (k : A -> M B) : M B :=
  fun w =>
    match m w with
    | (Normal a, w') => k a w'
    | (Throw e, w') => (Throw e, w')
    end.

Definition resolve {A} (a : A) : Promise A := fun w => (Fulfilled a, w).
Definition reject {A} (reason : exn) : Promise A := fun w => (Rejected reason, w).

(** A synchronous step inside [new Promise(function (resolve, reject) ...)]:
    an exception escaping the executor rejects the promise. *)
Definition await_sync {A B} (m : M A) (k : A -> Promise B) : Promise B :=
  fun w =>
    match m w with
    | (Normal a, w') => k a w'
    | (Throw e, w') => (Rejected e, w')
    end.

Notation "x <- m ;; k" := (bind m (fun x => k))
  (at level 61, m at next level, right associativity).
Notation "x <~ m ;; k" := (await_sync m (fun x => k))
  (at level 61, m at next level, right associativity).

(** ** The [crypto] module *)

(** The next [n] bytes of the entropy source, and the world once they are
    used up. *)
Definition draw (n : nat) (w : World) : list byte :=
  map (entropy w) (seq 0 n).

Definition consume (n : nat) (w : World) : World :=
  mkWorld (fun i => entropy w (n + i)%nat) (kdf_calls w) (global_derivedKey w).

Definition MAX_INT32 : Z := 2 ^ 31 - 1.

(** [crypto.randomBytes(size)]: [size] fresh bytes from the entropy source.
    A size that is not a number is refused with a [TypeError]; a number
    that is [NaN], negative or above [2^31 - 1] is refused with a
    [RangeError]. *)
Definition randomBytes (size : value) : M (list byte) :=
  fun w =>
    match size with
    | VNumber (Int n) =>
        if (0 <=? n) && (n <=? MAX_INT32)
        then (Normal (draw (Z.to_nat n) w), consume (Z.to_nat n) w)
        else (Throw (RangeError "size is out of range"), w)
    | VNumber NaN => (Throw (RangeError "size is out of range"), w)
    | _ => (Throw (TypeError "size must be a number"), w)
    end.

(** What the program needs from the platform beyond the functions written
    out above: the key-derivation function itself, as a function of its
    five arguments, and the conversion of a string to a number. *)
Class Platform : Type := {
  PBKDF2 : value -> value -> value -> value -> value -> exn + list byte;
  StringToNumber : string -> number
}.

(** The contract of [crypto.pbkdf2]: it only succeeds on an iteration
    count that is a positive 32-bit integer and a key length that is a
    non-negative 32-bit integer, and then returns exactly that many
    bytes. *)
Class PBKDF2Contract (P : Platform) : Prop := {
  PBKDF2_ok :
    forall password salt iterations keylen digest key,
      PBKDF2 password salt iterations keylen digest = inr key ->
      exists i k,
        iterations = VNumber (Int i) /\ keylen = VNumber (Int k) /\
        0 < i <= MAX_INT32 /\ 0 <= k <= MAX_INT32 /\
        List.length key = Z.to_nat k
}.

Definition log_call (c : KdfCall) (w : World) : World :=
  mkWorld (entropy w) (c :: kdf_calls w) (global_derivedKey w).

(** [derivedKey = key] where no [derivedKey] is declared: in non-strict
    code the assignment creates, or overwrites, the global variable of
    that name.  Its value is the value assigned. *)
Definition with_derivedKey (key : list byte) (w : World) : World :=
  mkWorld (entropy w) (kdf_calls w) (Some key).

Definition assign_derivedKey (key : list byte) : M (list byte) :=
  fun w => (Normal key, with_derivedKey key w).

(** [crypto.pbkdf2Sync(password, salt, iterations, keylen, digest)] returns
    the key or throws. *)
Definition pbkdf2Sync `{Platform} (password salt iterations keylen digest : value)
  : M (list byte) :=
  fun w =>
    (match PBKDF2 password salt iterations keylen digest with
     | inr key => Normal key
     | inl e => Throw e
     end,
     log_call (mkKdfCall password salt iterations keylen digest) w).

(** [crypto.pbkdf2(password, salt, iterations, keylen, digest, callback)]
    hands [callback] either an error or the key.  (An argument error that
    Node throws before scheduling the derivation escapes the executor and
    rejects the promise with the same error.) *)
Definition pbkdf2 `{Platform} {A} (password salt iterations keylen digest : value)
  (callback : option exn -> list byte -> Promise A) : Promise A :=
  fun w =>
    let w' := log_call (mkKdfCall password salt iterations keylen digest) w in
    match PBKDF2 password salt iterations keylen digest with
    | inr key => callback None key w'
    | inl e => callback (Some e) [] w'
    end.

(** ** More string built-ins: [slice] *)

Definition ToNumber `{Platform} (v : value) : number :=
  match v with
  | VUndefined => NaN
  | VNull => Int 0
  | VBool true => Int 1
  | VBool false => Int 0
  | VNumber n => n
  | VString s => StringToNumber s
  | VObject _ => NaN
  end.

Definition ToIntegerOrInfinity `{Platform} (v : value) : Z :=
  match ToNumber v with
  | NaN => 0
  | Int z => z
  end.

(** [s.slice(start, end)]: negative positions count from the end, both are
    clamped to the string. *)
Definition String_slice `{Platform} (s : string) (start end_ : value) : string :=
  let len := Z.of_nat (String.length s) in
  let relative_start := ToIntegerOrInfinity start in
  let from :=
    if relative_start <? 0 then Z.max (len + relative_start) 0
    else Z.min relative_start len in
  let relative_end :=
    match end_ with
    | VUndefined => len
    | _ => ToIntegerOrInfinity end_
    end in
  let to :=
    if relative_end <? 0 then Z.max (len + relative_end) 0
    else Z.min relative_end len in
  substring (Z.to_nat from) (Z.to_nat (Z.max (to - from) 0)) s.

(** ** The program *)

Module Hasher.
Record t : Type := mk {
  iterations : value;
  saltLength : value;
  derivedKeyLength : value;
  digest : value
}.
End Hasher.

Module EncryptedPassword.
Record t : Type := mk {
  salt : value;
  derivedKey : value;
  derivedKeyLength : value;
  iterations : value
}.
End EncryptedPassword.

(** [function NodePbkdf2 (options)] *)
Definition NodePbkdf2 (options : value) : Hasher.t :=
  let options := or_else options (VObject []) in
  {| Hasher.iterations := or_else (Get options "iterations") (VNumber (Int 10000));
     Hasher.saltLength := or_else (Get options "saltLength") (VNumber (Int 12));
     Hasher.derivedKeyLength := or_else (Get options "derivedKeyLength") (VNumber (Int 30));
     Hasher.digest := or_else (Get options "digest") (VString "sha512") |}.

(** [NodePbkdf2.uid] *)
Definition uid `{Platform} (len : value) : M string :=
  buf <- randomBytes len ;;
  ret (String_slice (Buffer_toString_base64 buf) (VNumber (Int 0)) len).

(** [NodePbkdf2.serializeEncryptedPassword] *)
Definition serializeEncryptedPassword (encryptedPassword : EncryptedPassword.t) : string :=
  ToString (EncryptedPassword.salt encryptedPassword) ++ "::" ++
  ToString (EncryptedPassword.derivedKey encryptedPassword) ++ "::" ++
  ToString (EncryptedPassword.derivedKeyLength encryptedPassword) ++ "::" ++
  ToString (EncryptedPassword.iterations encryptedPassword).

(** [NodePbkdf2.deserializeEncryptedPassword].  Calling [split] on
    something that is not a string is the only way it can throw. *)
Definition deserializeEncryptedPassword (encryptedPassword : value)
  : M EncryptedPassword.t :=
  match encryptedPassword with
  | VString s =>
      let items := String_split s "::" in
      ret {| EncryptedPassword.salt := item items 0;
             EncryptedPassword.derivedKey := item items 1;
             EncryptedPassword.derivedKeyLength := VNumber (parseInt (item items 2));
             EncryptedPassword.iterations := VNumber (parseInt (item items 3)) |}
  | VUndefined | VNull =>
      throw (TypeError "Cannot read property 'split' of undefined")
  | _ => throw (TypeError "encryptedPassword.split is not a function")
  end.

(** The guard shared by both check functions:
    [!salt || !derivedKey || !iterations || !derivedKeyLength]. *)
Definition wrong_format (encryptedPassword : EncryptedPassword.t) : bool :=
  negb (ToBoolean (EncryptedPassword.salt encryptedPassword)) ||
  negb (ToBoolean (EncryptedPassword.derivedKey encryptedPassword)) ||
  negb (ToBoolean (EncryptedPassword.iterations encryptedPassword)) ||
  negb (ToBoolean (EncryptedPassword.derivedKeyLength encryptedPassword)).

Definition format_message : string :=
  "encryptedPassword doesn't have the right format".

(** [NodePbkdf2.prototype.encryptPassword] *)
Definition encryptPassword `{Platform} (self : Hasher.t) (password : string)
  : Promise string :=
  randomSalt <~ uid (Hasher.saltLength self) ;;
  pbkdf2 (VString password) (VString randomSalt) (Hasher.iterations self)
    (Hasher.derivedKeyLength self) (Hasher.digest self)
    (fun err derivedKey =>
       match err with
       | Some e => reject e
       | None =>
           resolve (serializeEncryptedPassword
             {| EncryptedPassword.salt := VString randomSalt;
                EncryptedPassword.iterations := Hasher.iterations self;
                EncryptedPassword.derivedKeyLength := Hasher.derivedKeyLength self;
                EncryptedPassword.derivedKey :=
                  VString (Buffer_toString_base64 (new_Buffer derivedKey)) |})
       end).

(** [NodePbkdf2.prototype.encryptPasswordSync] *)
Definition encryptPasswordSync `{Platform} (self : Hasher.t) (password : string)
  : M string :=
  randomSalt <- uid (Hasher.saltLength self) ;;
  derivedKey <- pbkdf2Sync (VString password) (VString randomSalt)
                  (Hasher.iterations self) (Hasher.derivedKeyLength self)
                  (Hasher.digest self) ;;
  ret (serializeEncryptedPassword
         {| EncryptedPassword.salt := VString randomSalt;
            EncryptedPassword.iterations := Hasher.iterations self;
            EncryptedPassword.derivedKeyLength := Hasher.derivedKeyLength self;
            EncryptedPassword.derivedKey :=
              VString (Buffer_toString_base64 (new_Buffer derivedKey)) |}).

(** [NodePbkdf2.prototype.checkPassword] *)
Definition checkPassword `{Platform} (self : Hasher.t) (password : string)
  (encryptedPassword : value) : Promise bool :=
  encryptedPassword <~ deserializeEncryptedPassword encryptedPassword ;;
  if wrong_format encryptedPassword
  then reject (Reason format_message)
  else
    pbkdf2 (VString password) (EncryptedPassword.salt encryptedPassword)
      (EncryptedPassword.iterations encryptedPassword)
      (EncryptedPassword.derivedKeyLength encryptedPassword)
      (Hasher.digest self)
      (fun err derivedKey =>
         match err with
         | Some e => reject e
         | None =>
             if StrictEquals (Buffer_toString_base64 (new_Buffer derivedKey))
                  (EncryptedPassword.derivedKey encryptedPassword)
             then resolve true
             else resolve false
         end).

(** [NodePbkdf2.prototype.checkPasswordSync].  Unlike the three other
    functions it does not declare its [derivedKey]: the key is assigned to
    the global variable, which the comparison on the next line reads
    back. *)
Definition checkPasswordSync `{Platform} (self : Hasher.t) (password : string)
  (encryptedPassword : value) : M bool :=
  encryptedPassword <- deserializeEncryptedPassword encryptedPassword ;;
  if wrong_format encryptedPassword
  then throw (TypeError format_message)
  else
    key <- pbkdf2Sync (VString password)
             (EncryptedPassword.salt encryptedPassword)
             (EncryptedPassword.iterations encryptedPassword)
             (EncryptedPassword.derivedKeyLength encryptedPassword)
             (Hasher.digest self) ;;
    derivedKey <- assign_derivedKey key ;;
    if StrictEquals (Buffer_toString_base64 (new_Buffer derivedKey))
         (EncryptedPassword.derivedKey encryptedPassword)
    then ret true
    else ret false.

(** ** Vocabulary of the properties *)

Fixpoint string_forall (p : ascii -> bool) (s : string) : bool :=
  match s with
  | EmptyString => true
  | String c rest => p c && string_forall p rest
  end.

(** The characters a URL carries unescaped in any position: the unreserved
    set of RFC 3986, letters, digits, ['-'], ['.'], ['_'] and ['~']. *)
Definition url_safe (c : ascii) : bool :=
  is_upper c || is_lower c || is_digit c ||
  Ascii.eqb c "-" || Ascii.eqb c "." || Ascii.eqb c "_" || Ascii.eqb c "~".

Definition not_colon (c : ascii) : bool := negb (Ascii.eqb c ":").


(** The length of the base64 text of [n] bytes. *)
Definition base64_size (n : Z) : Z := 4 * ((n + 2) / 3).

(** The longest string every engine that runs the program can hold: V8
    stops at [2^28 - 16] characters on 32-bit builds and at [2^29 - 24] on
    64-bit ones.  Like memory, this is a resource the embedding does not
    bound: its strings and buffers are as long as they need to be.  The
    properties of the token generator and of encryption on the SHA-512
    platform that promise a result for a range of sizes keep that range to
    the sizes whose text fits. *)
Definition MAX_STRING_LENGTH : Z := 2 ^ 28 - 16.

(** The first size [crypto.randomBytes] refuses for being too large. *)
Definition oversized_length : Z := 2 ^ 31.

(** A positive integer, as a JavaScript number: positive and safe. *)
Definition positive_integer (v : value) : bool :=
  match v with
  | VNumber (Int z) => (0 <? z) && (z <=? MAX_SAFE_INTEGER)
  | _ => false
  end.

(** A string field with no occurrence of the delimiter. *)
Definition without_delimiter (v : value) : bool :=
  match v with
  | VString s => negb (includes s "::")
  | _ => false
  end.

(** A string field that cannot meet the delimiter that follows it either:
    no occurrence of ["::"] and no final [':']. *)
Definition delimiter_safe (v : value) : bool :=
  match v with
  | VString s => negb (includes s "::") && negb (endsWith s ":")
  | _ => false
  end.

(** A field that makes a record unusable: missing, empty, zero or not a
    number. *)
Definition defective (v : value) : bool :=
  match v with
  | VUndefined => true
  | VString s => (s =? "")%string
  | VNumber NaN => true
  | VNumber (Int z) => z =? 0
  | _ => false
  end.

(** The key-derivation function tells two passwords apart on the
    parameters of a record when it derives a key for each and the two keys
    differ. *)
Definition separates `{Platform} (digest : value) (p q : string)
  (r : EncryptedPassword.t) : Prop :=
  exists kp kq,
    PBKDF2 (VString p) (EncryptedPassword.salt r) (EncryptedPassword.iterations r)
      (EncryptedPassword.derivedKeyLength r) digest = inr kp /\
    PBKDF2 (VString q) (EncryptedPassword.salt r) (EncryptedPassword.iterations r)
      (EncryptedPassword.derivedKeyLength r) digest = inr kq /\
    kp <> kq.

(** The key derivation a check performs for a record. *)
Definition check_call (self : Hasher.t) (password : string)
  (r : EncryptedPassword.t) : KdfCall :=
  mkKdfCall (VString password) (EncryptedPassword.salt r)
    (EncryptedPassword.iterations r) (EncryptedPassword.derivedKeyLength r)
    (Hasher.digest self).

(** The record of the claim as written: two strings without the
    delimiter, two positive integers. *)
Definition stated_valid (r : EncryptedPassword.t) : bool :=
  without_delimiter (EncryptedPassword.salt r) &&
  without_delimiter (EncryptedPassword.derivedKey r) &&
  positive_integer (EncryptedPassword.derivedKeyLength r) &&
  positive_integer (EncryptedPassword.iterations r).

(** The records that do round-trip: the two strings must not end in a
    colon either. *)
Definition valid_record (r : EncryptedPassword.t) : bool :=
  delimiter_safe (EncryptedPassword.salt r) &&
  delimiter_safe (EncryptedPassword.derivedKey r) &&
  positive_integer (EncryptedPassword.derivedKeyLength r) &&
  positive_integer (EncryptedPassword.iterations r).

(** A record whose salt ends in a colon. *)
Definition colon_record : EncryptedPassword.t :=
  EncryptedPassword.mk (VString "a:") (VString "b")
    (VNumber (Int 12)) (VNumber (Int 1000)).

(** [r] is a record string that encrypting [password] with [self] has
    produced, through either form. *)
Definition produces `{Platform} (self : Hasher.t) (password : string) (r : string)
  : Prop :=
  (exists w w', encryptPasswordSync self password w = (Normal r, w')) \/
  (exists w w', encryptPassword self password w = (Fulfilled r, w')).


(** ** PBKDF2 with HMAC-SHA-512

    The key derivation Node performs for the digest ["sha512"], written
    out from FIPS 180-4 (SHA-512), RFC 2104 (HMAC) and RFC 8018 (PBKDF2) so
    that concrete records can be computed.  Octets are numbers below 256,
    words numbers below 2^64. *)

Definition mask64 : N := Eval vm_compute in N.ones 64.

Definition add64 (x y : N) : N := N.land (x + y) mask64.

Definition rotr64 (n x : N) : N :=
  N.lor (N.shiftr x n) (N.land (N.shiftl x (64 - n)) mask64).

Definition sha512_initial : list N :=
  [
   0x6a09e667f3bcc908; 0xbb67ae8584caa73b; 0x3c6ef372fe94f82b; 0xa54ff53a5f1d36f1;
   0x510e527fade682d1; 0x9b05688c2b3e6c1f; 0x1f83d9abfb41bd6b; 0x5be0cd19137e2179
  ]%N.

Definition sha512_constants : list N :=
  [
   0x428a2f98d728ae22; 0x7137449123ef65cd; 0xb5c0fbcfec4d3b2f;
   0xe9b5dba58189dbbc; 0x3956c25bf348b538; 0x59f111f1b605d019;
   0x923f82a4af194f9b; 0xab1c5ed5da6d8118; 0xd807aa98a3030242;
   0x12835b0145706fbe; 0x243185be4ee4b28c; 0x550c7dc3d5ffb4e2;
   0x72be5d74f27b896f; 0x80deb1fe3b1696b1; 0x9bdc06a725c71235;
   0xc19bf174cf692694; 0xe49b69c19ef14ad2; 0xefbe4786384f25e3;
   0x0fc19dc68b8cd5b5; 0x240ca1cc77ac9c65; 0x2de92c6f592b0275;
   0x4a7484aa6ea6e483; 0x5cb0a9dcbd41fbd4; 0x76f988da831153b5;
   0x983e5152ee66dfab; 0xa831c66d2db43210; 0xb00327c898fb213f;
   0xbf597fc7beef0ee4; 0xc6e00bf33da88fc2; 0xd5a79147930aa725;
   0x06ca6351e003826f; 0x142929670a0e6e70; 0x27b70a8546d22ffc;
   0x2e1b21385c26c926; 0x4d2c6dfc5ac42aed; 0x53380d139d95b3df;
   0x650a73548baf63de; 0x766a0abb3c77b2a8; 0x81c2c92e47edaee6;
   0x92722c851482353b; 0xa2bfe8a14cf10364; 0xa81a664bbc423001;
   0xc24b8b70d0f89791; 0xc76c51a30654be30; 0xd192e819d6ef5218;
   0xd69906245565a910; 0xf40e35855771202a; 0x106aa07032bbd1b8;
   0x19a4c116b8d2d0c8; 0x1e376c085141ab53; 0x2748774cdf8eeb99;
   0x34b0bcb5e19b48a8; 0x391c0cb3c5c95a63; 0x4ed8aa4ae3418acb;
   0x5b9cca4f7763e373; 0x682e6ff3d6b2b8a3; 0x748f82ee5defb2fc;
   0x78a5636f43172f60; 0x84c87814a1f0ab72; 0x8cc702081a6439ec;
   0x90befffa23631e28; 0xa4506cebde82bde9; 0xbef9a3f7b2c67915;
   0xc67178f2e372532b; 0xca273eceea26619c; 0xd186b8c721c0c207;
   0xeada7dd6cde0eb1e; 0xf57d4f7fee6ed178; 0x06f067aa72176fba;
   0x0a637dc5a2c898a6; 0x113f9804bef90dae; 0x1b710b35131c471b;
   0x28db77f523047d84; 0x32caab7b40c72493; 0x3c9ebe0a15c9bebc;
   0x431d67c49c100d4c; 0x4cc5d4becb3e42b6; 0x597f299cfc657e2a;
   0x5fcb6fab3ad6faec; 0x6c44198c4a475817
  ]%N.

Definition small_sigma0 (x : N) : N :=
  N.lxor (N.lxor (rotr64 1 x) (rotr64 8 x)) (N.shiftr x 7).

Definition small_sigma1 (x : N) : N :=
  N.lxor (N.lxor (rotr64 19 x) (rotr64 61 x)) (N.shiftr x 6).

Definition big_sigma0 (x : N) : N :=
  N.lxor (N.lxor (rotr64 28 x) (rotr64 34 x)) (rotr64 39 x).

Definition big_sigma1 (x : N) : N :=
  N.lxor (N.lxor (rotr64 14 x) (rotr64 18 x)) (rotr64 41 x).

Definition choose (e f g : N) : N :=
  N.lxor (N.land e f) (N.land (N.lxor e mask64) g).

Definition majority (a b c : N) : N :=
  N.lxor (N.lxor (N.land a b) (N.land a c)) (N.land b c).

(** Big-endian words from octets and back. *)
Definition word_of_octets (bs : list N) : N :=
  fold_left (fun acc b => N.lor (N.shiftl acc 8) b) bs 0%N.

Definition octets_of_word (width : nat) (x : N) : list N :=
  map (fun i => N.land (N.shiftr x (8 * N.of_nat (width - 1 - i))) 255)
    (seq 0 width).

Fixpoint chunks (fuel size : nat) (l : list N) : list (list N) :=
  match fuel, l with
  | O, _ | _, [] => []
  | S fuel', _ => firstn size l :: chunks fuel' size (skipn size l)
  end.

(** The message schedule, most recent word first: [w] starts as the
    sixteen words of the block reversed and grows to eighty words. *)
Fixpoint schedule (n : nat) (w : list N) : list N :=
  match n with
  | O => w
  | S n' =>
      schedule n'
        (add64 (add64 (small_sigma1 (nth 1 w 0%N)) (nth 6 w 0%N))
               (add64 (small_sigma0 (nth 14 w 0%N)) (nth 15 w 0%N)) :: w)
  end.

Definition sha512_round (state : list N) (kw : N * N) : list N :=
  match state with
  | [a; b; c; d; e; f; g; h] =>
      let t1 := add64 (add64 (add64 h (big_sigma1 e)) (choose e f g))
                      (add64 (fst kw) (snd kw)) in
      let t2 := add64 (big_sigma0 a) (majority a b c) in
      [add64 t1 t2; a; b; c; add64 d t1; e; f; g]
  | _ => state
  end.

Definition sha512_compress (state : list N) (block : list N) : list N :=
  let w := rev (schedule 64 (rev (map word_of_octets (chunks 16 8 block)))) in
  let final := fold_left sha512_round (combine sha512_constants w) state in
  map (fun xy => add64 (fst xy) (snd xy)) (combine state final).

Definition sha512_pad (msg : list N) : list N :=
  let len := List.length msg in
  (msg ++ [128%N] ++ repeat 0%N ((239 - len mod 128) mod 128) ++
   octets_of_word 16 (8 * N.of_nat len))%list.

Definition sha512 (msg : list N) : list N :=
  let padded := sha512_pad msg in
  let blocks := chunks (List.length padded) 128 padded in
  flat_map (octets_of_word 8) (fold_left sha512_compress blocks sha512_initial).

Definition xor_octets (xs ys : list N) : list N :=
  map (fun xy => N.lxor (fst xy) (snd xy)) (combine xs ys).

Definition hmac_sha512 (key msg : list N) : list N :=
  let key := if (128 <? List.length key)%nat then sha512 key else key in
  let key := (key ++ repeat 0%N (128 - List.length key))%list in
  sha512 (map (N.lxor 92) key ++ sha512 (map (N.lxor 54) key ++ msg))%list.

(** [U_1 xor ... xor U_c] for one block index. *)
Fixpoint pbkdf2_iterate (password : list N) (c : nat) (u acc : list N) : list N :=
  match c with
  | O => acc
  | S c' =>
      let u' := hmac_sha512 password u in
      pbkdf2_iterate password c' u' (xor_octets acc u')
  end.

Definition pbkdf2_block (password salt : list N) (c : nat) (i : nat) : list N :=
  let u := hmac_sha512 password (salt ++ octets_of_word 4 (N.of_nat i))%list in
  pbkdf2_iterate password (c - 1) u u.

Definition pbkdf2_hmac_sha512 (password salt : list N) (c keylen : nat) : list N :=
  firstn keylen
    (flat_map (pbkdf2_block password salt c) (seq 1 ((keylen + 63) / 64))).

(** Strings reach the key derivation as UTF-8. *)
Definition utf8 (s : string) : list N :=
  flat_map
    (fun c =>
       let n := N_of_ascii c in
       if (n <? 128)%N then [n]
       else [(192 + N.shiftr n 6)%N; (128 + N.land n 63)%N])
    (list_ascii_of_string s).

(** [crypto.pbkdf2] for string arguments and the digest ["sha512"]; any
    other digest is reported as unsupported.  A key length of zero passes
    the check of the arguments and fails in the derivation itself. *)
Definition sha512_PBKDF2 (password salt iterations keylen digest : value)
  : exn + list byte :=
  match password, salt, iterations, keylen, digest with
  | VString p, VString s, VNumber (Int i), VNumber (Int k), VString d =>
      if negb (d =? "sha512")%string
      then inl (TypeError "Invalid digest")
      else if (0 <? i) && (i <=? MAX_INT32) && (0 <=? k) && (k <=? MAX_INT32)
      then if k =? 0
           then inl (Error "Deriving bits failed")
           else inr (map byte_of_N
                       (pbkdf2_hmac_sha512 (utf8 p) (utf8 s)
                          (Z.to_nat i) (Z.to_nat k)))
      else inl (RangeError "argument out of range")
  | _, _, _, _, _ => inl (TypeError "invalid argument type")
  end.

Fixpoint string_rev (s : string) : string :=
  match s with
  | EmptyString => ""
  | String c rest => string_rev rest ++ String c ""
  end.

Definition all_digits (s : string) : number :=
  if string_forall is_digit s then parse_digits s else NaN.

(** The number a string denotes, for the strings that denote a number of
    the integer model: white space around an optionally signed run of
    decimal digits, or nothing but white space, which denotes zero.  Every
    other string is taken to [NaN]. *)
Definition decimal_StringToNumber (s : string) : number :=
  match string_rev (trim_start (string_rev (trim_start s))) with
  | EmptyString => Int 0
  | String c rest as t =>
      if Ascii.eqb c "-" then negate (all_digits rest)
      else if Ascii.eqb c "+" then all_digits rest
      else all_digits t
  end.

Definition node_platform : Platform :=
  {| PBKDF2 := sha512_PBKDF2;
     StringToNumber := decimal_StringToNumber |}.

(** ** Concrete inputs *)

(** An entropy source whose first byte is [0xfb] and every later one
    [0xff]. *)
Definition sample_world : World :=
  mkWorld (fun i => match i with O => Byte.xfb | S _ => Byte.xff end) [] None.

(** The options of the test suite, with iteration counts small enough to
    run here, and a stronger configuration on the same digest. *)
Definition quick_options : value :=
  VObject [("iterations", VNumber (Int 2));
           ("saltLength", VNumber (Int 12));
           ("derivedKeyLength", VNumber (Int 30));
           ("digest", VString "sha512")].

Definition stronger_options : value :=
  VObject [("iterations", VNumber (Int 3));
           ("saltLength", VNumber (Int 24));
           ("derivedKeyLength", VNumber (Int 40));
           ("digest", VString "sha512")].

(** A hasher that keeps a single byte of derived key. *)
Definition short_key_options : value :=
  VObject [("iterations", VNumber (Int 1));
           ("derivedKeyLength", VNumber (Int 1))].

(** The record the quick hasher produces for ["supersecret"] in the sample
    world, its fields, and the key inside it. *)
Definition supersecret_record : string :=
  "+///////////::yT3/ArrjOxjSQTAnLl3VgiL2mK/6BnWLOoyEGw5I::30::2".

Definition supersecret_fields : EncryptedPassword.t :=
  EncryptedPassword.mk (VString "+///////////")
    (VString "yT3/ArrjOxjSQTAnLl3VgiL2mK/6BnWLOoyEGw5I")
    (VNumber (Int 30)) (VNumber (Int 2)).

Definition supersecret_key : list byte :=
  map byte_of_N
    [201; 61; 255; 2; 186; 227; 59; 24; 210; 65; 48; 39; 46; 93; 213; 130;
     34; 246; 152; 175; 250; 6; 117; 139; 58; 140; 132; 27; 14; 72]%N.

Definition supersecretx_key : list byte :=
  map byte_of_N
    [103; 140; 168; 72; 227; 187; 149; 14; 66; 240; 221; 160; 21; 222; 177;
     133; 72; 249; 57; 185; 141; 161; 191; 170; 106; 61; 224; 2; 253; 57]%N.

(** The record the short-key hasher produces for ["supersecret156"] in the
    sample world. *)
Definition short_key_record : string := "+///////////::3A==::1::1".

(** The record of the repository's serialization test. *)
Definition test_record : EncryptedPassword.t :=
  EncryptedPassword.mk (VString "erwrw/+99") (VString "qzeqzr++p//r")
    (VNumber (Int 12)) (VNumber (Int 1000)).

(** ** Vocabulary of the further properties *)

(** The promise a synchronous outcome corresponds to. *)
Definition settle {A} (c : completion A) : settled A :=
  match c with
  | Normal a => Fulfilled a
  | Throw e => Rejected e
  end.

(** A size [crypto.randomBytes] accepts. *)
Definition accepted_size (v : value) : bool :=
  match v with
  | VNumber (Int z) => (0 <=? z) && (z <=? MAX_INT32)
  | _ => false
  end.



(** A configuration on which encryption with the SHA-512 key derivation
    goes through: a positive 32-bit iteration count, positive salt and key
    lengths, the digest ["sha512"], and a record that fits a string.  The
    record is the salt, the base64 text of the key, two numbers of at most
    ten digits each and three delimiters; the base64 text the salt is cut
    from is longer than the salt. *)
Definition sha512_ready (self : Hasher.t) : bool :=
  match Hasher.iterations self, Hasher.saltLength self,
        Hasher.derivedKeyLength self, Hasher.digest self with
  | VNumber (Int i), VNumber (Int n), VNumber (Int k), VString d =>
      (0 <? i) && (i <=? MAX_INT32) && (0 <? n) && (0 <? k) &&
      (base64_size n + base64_size k + 26 <=? MAX_STRING_LENGTH) &&
      (d =? "sha512")%string
  | _, _, _, _ => false
  end.

(** The key derivation an encryption performs with a salt. *)
Definition encrypt_call (self : Hasher.t) (password salt : string) : KdfCall :=
  mkKdfCall (VString password) (VString salt) (Hasher.iterations self)
    (Hasher.derivedKeyLength self) (Hasher.digest self).

(** Two entropy sources that agree on their first [m] bytes. *)
Definition same_entropy (m : nat) (w1 w2 : World) : Prop :=
  forall i, (i < m)%nat -> entropy w1 i = entropy w2 i.

(** ** Concrete inputs of the further properties *)

(** An entropy source that starts like [sample_world] and gives zero bytes
    from the tenth byte on, and one that only gives [0xff]. *)
Definition other_world : World :=
  mkWorld (fun i => match i with
                    | O => Byte.xfb
                    | _ => if (i <? 9)%nat then Byte.xff else Byte.x00
                    end) [] None.

Definition constant_world : World := mkWorld (fun _ => Byte.xff) [] None.

(** The world after the quick hasher has encrypted ["supersecret"] in a
    world. *)
Definition after_supersecret (salt : string) (w : World) : World :=
  log_call (encrypt_call (NodePbkdf2 quick_options) "supersecret" salt)
    (consume 12 w).

(** The record the quick hasher produces for ["supersecret"] from the
    constant entropy source. *)
Definition constant_record : string :=
  "////////////::PHW10YYSb3W7PW/VI1/QPD6r4Sg4tCMtuGKL5OcR::30::2".

(** A hasher asked for a negative salt length. *)
Definition negative_salt_options : value :=
  VObject [("saltLength", VNumber (Int (-1)))].

(** * Properties *)

(** ** Strings *)

Lemma append_empty_r (s : string) : s ++ "" = s.
Proof. induction s as [|c s IH]; simpl; congruence. Qed.

Lemma append_assoc (s t u : string) : (s ++ t) ++ u = s ++ t ++ u.
Proof. induction s as [|c s IH]; simpl; congruence. Qed.

Lemma string_forall_impl (p q : ascii -> bool) (s : string) :
  (forall c, p c = true -> q c = true) ->
  string_forall p s = true -> string_forall q s = true.
Proof.
  intros Hpq. induction s as [|c s IH]; simpl; [reflexivity|].
  intros H. apply andb_true_iff in H as [Hc Hs].
  apply andb_true_iff. split; auto.
Qed.

Lemma length_substring_0 (n : nat) (s : string) :
  (n <= String.length s)%nat -> String.length (substring 0 n s) = n.
Proof.
  revert n. induction s as [|c s IH]; intros [|n] H; simpl in *;
    try reflexivity; try lia.
  rewrite IH; lia.
Qed.

(** ** [split] on the delimiter *)

Lemma prefix_empty (s : string) : prefix "" s = true.
Proof. destruct s; reflexivity. Qed.

Lemma prefix_cons (a b : ascii) (s t : string) :
  prefix (String a s) (String b t) = Ascii.eqb a b && prefix s t.
Proof.
  cbn [prefix]. destruct (ascii_dec a b) as [->|Hne].
  - now rewrite Ascii.eqb_refl.
  - apply Ascii.eqb_neq in Hne. now rewrite Hne.
Qed.

Lemma includes_cons (c : ascii) (s sub : string) :
  includes (String c s) sub = prefix sub (String c s) || includes s sub.
Proof. reflexivity. Qed.

Lemma prefix_delimiter_tail (c : ascii) (a t1 t2 : string) :
  prefix "::" (String c (a ++ String ":" t1)) =
  prefix "::" (String c (a ++ String ":" t2)).
Proof.
  rewrite !prefix_cons. destruct a as [|d a]; cbn [append].
  - now rewrite !prefix_cons, !prefix_empty.
  - now rewrite !prefix_cons, !prefix_empty.
Qed.

Lemma prefix_delimiter_not_colon (c : ascii) (s : string) :
  not_colon c = true -> prefix "::" (String c s) = false.
Proof.
  unfold not_colon. intros H. rewrite prefix_cons.
  rewrite Ascii.eqb_sym. apply negb_true_iff in H. now rewrite H.
Qed.

(** A field in which the delimiter cannot start is cut off whole, and the
    scan resumes behind the delimiter. *)
Lemma split_from_field (a : string) :
  forall cur rest,
    includes (a ++ ":") "::" = false ->
    split_from "::" 0 cur (a ++ "::" ++ rest) =
    (cur ++ a) :: split_from "::" 0 "" rest.
Proof.
  induction a as [|c a IH]; intros cur rest H.
  - rewrite append_empty_r. cbn [append split_from].
    rewrite !prefix_cons, prefix_empty. cbn [Ascii.eqb Bool.eqb andb].
    cbn [String.length Nat.sub split_from]. reflexivity.
  - cbn [append] in H. rewrite includes_cons in H.
    apply orb_false_iff in H as [Hp Hi].
    change ((String c a) ++ "::" ++ rest) with (String c (a ++ String ":" (String ":" rest))).
    cbn [split_from].
    rewrite (prefix_delimiter_tail c a _ "").
    change (String ":" "") with ":". rewrite Hp.
    change (String ":" (String ":" rest)) with ("::" ++ rest).
    rewrite IH by exact Hi.
    rewrite append_assoc. reflexivity.
Qed.

Lemma split_from_last (a : string) :
  forall cur, includes a "::" = false -> split_from "::" 0 cur a = [cur ++ a].
Proof.
  induction a as [|c a IH]; intros cur H.
  - now rewrite append_empty_r.
  - rewrite includes_cons in H.
    apply orb_false_iff in H as [Hp Hi].
    cbn [split_from]. rewrite Hp, IH by exact Hi.
    now rewrite append_assoc.
Qed.

Lemma endsWith_cons (c : ascii) (a : string) :
  endsWith (String c a) ":" =
  match a with
  | EmptyString => Ascii.eqb c ":"
  | _ => endsWith a ":"
  end.
Proof.
  unfold endsWith. cbn [String.length].
  destruct a as [|d a].
  - simpl. destruct (Ascii.eqb c ":"); reflexivity.
  - cbn [String.length Nat.leb Nat.sub andb].
    rewrite !Nat.sub_0_r. reflexivity.
Qed.

Lemma delimiter_cannot_start (a : string) :
  includes a "::" = false -> endsWith a ":" = false ->
  includes (a ++ ":") "::" = false.
Proof.
  induction a as [|c a IH]; intros Hi He; [reflexivity|].
  rewrite includes_cons in Hi.
  apply orb_false_iff in Hi as [Hp Hi].
  rewrite endsWith_cons in He.
  cbn [append]. rewrite includes_cons.
  apply orb_false_iff. split.
  - destruct a as [|d a].
    + cbn [append]. rewrite !prefix_cons, prefix_empty.
      rewrite Ascii.eqb_sym, He. reflexivity.
    + cbn [append]. rewrite !prefix_cons, prefix_empty in *. exact Hp.
  - apply IH; [exact Hi|]. destruct a; [reflexivity|exact He].
Qed.

Lemma colon_free_cannot_start (a : string) :
  string_forall not_colon a = true -> includes (a ++ ":") "::" = false.
Proof.
  induction a as [|c a IH]; intros H; [reflexivity|].
  simpl in H. apply andb_true_iff in H as [Hc Ha].
  cbn [append]. rewrite includes_cons.
  rewrite (IH Ha), orb_false_r.
  now apply prefix_delimiter_not_colon.
Qed.

Lemma colon_free_includes (a : string) :
  string_forall not_colon a = true -> includes a "::" = false.
Proof.
  induction a as [|c a IH]; intros H; [reflexivity|].
  simpl in H. apply andb_true_iff in H as [Hc Ha].
  rewrite includes_cons.
  rewrite (IH Ha), orb_false_r.
  now apply prefix_delimiter_not_colon.
Qed.

(** The four fields of a serialized record come back as four items. *)
Lemma split_four_fields (a b c d : string) :
  includes (a ++ ":") "::" = false ->
  includes (b ++ ":") "::" = false ->
  includes (c ++ ":") "::" = false ->
  includes d "::" = false ->
  String_split (a ++ "::" ++ b ++ "::" ++ c ++ "::" ++ d) "::" = [a; b; c; d].
Proof.
  intros Ha Hb Hc Hd. unfold String_split. cbn [String.eqb].
  rewrite (split_from_field a "" _ Ha).
  rewrite (split_from_field b "" _ Hb).
  rewrite (split_from_field c "" _ Hc).
  rewrite (split_from_last d "" Hd).
  reflexivity.
Qed.

(** ** Decimal numerals and [parseInt] *)

Lemma is_digit_cases (c : ascii) :
  is_digit c = true ->
  is_white_space c = false /\ Ascii.eqb c "-" = false /\
  Ascii.eqb c "+" = false /\ not_colon c = true.
Proof.
  destruct c as [[] [] [] [] [] [] [] []]; intros H;
    try discriminate H; repeat split; reflexivity.
Qed.



Lemma digits_of_uint (d : Decimal.uint) :
  string_forall is_digit (NilEmpty.string_of_uint d) = true.
Proof. induction d; simpl; auto. Qed.

Lemma string_of_uint_nonempty (d : Decimal.uint) :
  d <> Decimal.Nil -> NilEmpty.string_of_uint d <> "".
Proof. destruct d; simpl; congruence. Qed.


Lemma digit_prefix_all (s : string) :
  string_forall is_digit s = true -> digit_prefix s = s.
Proof.
  induction s as [|c s IH]; simpl; intros H; [reflexivity|].
  apply andb_true_iff in H as [-> Hs]. now rewrite IH.
Qed.

Lemma parse_digits_numeral (d : Decimal.uint) :
  d <> Decimal.Nil ->
  parse_digits (NilEmpty.string_of_uint d) = Int (Z.of_uint d).
Proof.
  intros Hd. unfold parse_digits.
  rewrite digit_prefix_all by apply digits_of_uint.
  apply string_of_uint_nonempty, String.eqb_neq in Hd. rewrite Hd.
  now rewrite NilEmpty.usu.
Qed.

Lemma parseInt_numeral (d : Decimal.uint) :
  d <> Decimal.Nil ->
  parseInt (VString (NilEmpty.string_of_uint d)) = Int (Z.of_uint d).
Proof.
  intros Hd. rewrite <- (parse_digits_numeral d Hd).
  unfold parseInt. cbn [ToString].
  pose proof (digits_of_uint d) as Hall.
  pose proof (string_of_uint_nonempty d Hd) as Hne.
  destruct (NilEmpty.string_of_uint d) as [|c s]; [congruence|].
  simpl in Hall. apply andb_true_iff in Hall as [Hc _].
  destruct (is_digit_cases c Hc) as (Hw & Hm & Hp & _).
  cbn [trim_start]. now rewrite Hw, Hm, Hp.
Qed.

Lemma string_of_pos (p : positive) :
  NilZero.string_of_uint (Pos.to_uint p) = NilEmpty.string_of_uint (Pos.to_uint p).
Proof.
  pose proof (Unsigned.to_uint_nonnil p) as H.
  destruct (Pos.to_uint p); [congruence|reflexivity..].
Qed.

Lemma of_uint_pos (p : positive) : Z.of_uint (Pos.to_uint p) = Z.pos p.
Proof. unfold Z.of_uint. now rewrite Unsigned.of_to. Qed.

(** Reading back a printed integer gives the integer. *)
Lemma parseInt_Number_toString (z : Z) :
  parseInt (VString (Number_toString (Int z))) = Int z.
Proof.
  destruct z as [|p|p]; [reflexivity| |]; cbn [Number_toString Z.to_int NilZero.string_of_int].
  - rewrite string_of_pos, parseInt_numeral by apply Unsigned.to_uint_nonnil.
    now rewrite of_uint_pos.
  - rewrite string_of_pos. unfold parseInt. cbn [ToString trim_start].
    change (is_white_space "-") with false. cbn [Ascii.eqb Bool.eqb].
    rewrite parse_digits_numeral by apply Unsigned.to_uint_nonnil.
    now rewrite of_uint_pos.
Qed.

Lemma Number_toString_colon_free (z : Z) :
  string_forall not_colon (Number_toString (Int z)) = true.
Proof.
  assert (Hd : forall d, string_forall not_colon (NilEmpty.string_of_uint d) = true).
  { intros d. apply (string_forall_impl is_digit); [|apply digits_of_uint].
    intros c Hc. apply (is_digit_cases c Hc). }
  destruct z as [|p|p]; [reflexivity| |];
    cbn [Number_toString Z.to_int NilZero.string_of_int];
    rewrite string_of_pos; [apply Hd|].
  cbn [string_forall]. now rewrite Hd.
Qed.





(** ** base64 *)

Lemma list_ind3 {A} (P : list A -> Prop) :
  P [] ->
  (forall a, P [a]) ->
  (forall a b, P [a; b]) ->
  (forall a b c l, P l -> P (a :: b :: c :: l)) ->
  forall l, P l.
Proof.
  intros H0 H1 H2 H3. fix IH 1.
  intros [|a [|b [|c l]]];
    [exact H0 | apply H1 | apply H2 | apply H3, IH].
Qed.

Lemma forallb_below (k : nat) (P : N -> bool) :
  forallb P (below k) = true ->
  forall n, (n < N.of_nat k)%N -> P n = true.
Proof.
  intros H n Hn. rewrite forallb_forall in H. apply H.
  unfold below. apply in_map_iff. exists (N.to_nat n). split.
  - apply N2Nat.id.
  - apply in_seq. lia.
Qed.

Lemma forallb_below2 (k : nat) (P : N -> N -> bool) :
  forallb (fun x => forallb (P x) (below k)) (below k) = true ->
  forall x y, (x < N.of_nat k)%N -> (y < N.of_nat k)%N -> P x y = true.
Proof.
  intros H x y Hx Hy.
  apply (forallb_below k (P x)); [|exact Hy].
  apply (forallb_below k (fun x => forallb (P x) (below k))); assumption.
Qed.

Lemma first_pair_checked (x y : N) :
  (x < 256)%N -> (y < 256)%N -> check_first_pair x y = true.
Proof. apply (forallb_below2 256). vm_compute. reflexivity. Qed.

Lemma second_pair_checked (y z : N) :
  (y < 256)%N -> (z < 256)%N -> check_second_pair y z = true.
Proof. apply (forallb_below2 256). vm_compute. reflexivity. Qed.

Lemma table_checked (n : N) : (n < 64)%N -> check_table n = true.
Proof. apply (forallb_below 64). vm_compute. reflexivity. Qed.

Lemma to_N_lt (a : byte) : (Byte.to_N a < 256)%N.
Proof. pose proof (Byte.to_N_bounded a). lia. Qed.

Lemma byte_of_to_N (a : byte) : byte_of_N (Byte.to_N a) = a.
Proof. unfold byte_of_N. now rewrite Byte.of_to_N. Qed.

Lemma first_pair (x y : N) :
  (x < 256)%N -> (y < 256)%N ->
  (sextet0 x < 64)%N /\ (sextet1 x y < 64)%N /\
  octet0 (sextet0 x) (sextet1 x y) = x /\
  N.land (sextet1 x y) 15 = N.shiftr y 4.
Proof.
  intros Hx Hy. pose proof (first_pair_checked x y Hx Hy) as H.
  unfold check_first_pair in H.
  repeat (apply andb_true_iff in H as [H ?]).
  repeat split; try (now apply N.ltb_lt); now apply N.eqb_eq.
Qed.

Lemma second_pair (y z : N) :
  (y < 256)%N -> (z < 256)%N ->
  (sextet2 y z < 64)%N /\ (sextet3 z < 64)%N /\
  N.shiftr (sextet2 y z) 2 = N.land y 15 /\
  octet2 (sextet2 y z) (sextet3 z) = z /\
  N.lor (N.shiftl (N.shiftr y 4) 4) (N.land y 15) = y.
Proof.
  intros Hy Hz. pose proof (second_pair_checked y z Hy Hz) as H.
  unfold check_second_pair in H.
  repeat (apply andb_true_iff in H as [H ?]).
  repeat split; try (now apply N.ltb_lt); now apply N.eqb_eq.
Qed.

Lemma middle_octet (x y z : N) :
  (x < 256)%N -> (y < 256)%N -> (z < 256)%N ->
  octet1 (sextet1 x y) (sextet2 y z) = y.
Proof.
  intros Hx Hy Hz. unfold octet1.
  destruct (first_pair x y Hx Hy) as (_ & _ & _ & ->).
  destruct (second_pair y z Hy Hz) as (_ & _ & -> & _ & H). exact H.
Qed.

Lemma sextet_char_base64 (n : N) :
  (n < 64)%N -> is_base64_char (sextet_char n) = true.
Proof.
  intros Hn. pose proof (table_checked n Hn) as H.
  now apply andb_true_iff in H as [H _].
Qed.

Lemma char_sextet_char (n : N) :
  (n < 64)%N -> char_sextet (sextet_char n) = n.
Proof.
  intros Hn. pose proof (table_checked n Hn) as H.
  apply andb_true_iff in H as [_ H]. now apply N.eqb_eq.
Qed.

Lemma base64_char_cases (c : ascii) :
  is_base64_char c = true ->
  Ascii.eqb c "=" = false /\ not_colon c = true.
Proof.
  destruct c as [[] [] [] [] [] [] [] []]; intros H;
    try discriminate H; split; reflexivity.
Qed.

Lemma sextet_char_not_pad (n : N) :
  (n < 64)%N -> Ascii.eqb (sextet_char n) "=" = false.
Proof. intros Hn. now apply base64_char_cases, sextet_char_base64. Qed.

(** The sextets of a group of bytes are table indices. *)
Lemma sextets_in_range (a b c : byte) :
  (sextet0 (Byte.to_N a) < 64)%N /\
  (sextet1 (Byte.to_N a) (Byte.to_N b) < 64)%N /\
  (sextet1 (Byte.to_N a) 0 < 64)%N /\
  (sextet2 (Byte.to_N b) (Byte.to_N c) < 64)%N /\
  (sextet2 (Byte.to_N b) 0 < 64)%N /\
  (sextet3 (Byte.to_N c) < 64)%N.
Proof.
  pose proof (to_N_lt a) as Ha. pose proof (to_N_lt b) as Hb.
  pose proof (to_N_lt c) as Hc.
  assert (H0 : (0 < 256)%N) by lia.
  destruct (first_pair _ _ Ha Hb) as (? & ? & _).
  destruct (first_pair _ _ Ha H0) as (_ & ? & _).
  destruct (second_pair _ _ Hb Hc) as (? & ? & _).
  destruct (second_pair _ _ Hb H0) as (? & _).
  repeat split; assumption.
Qed.

(** Decoding undoes encoding, so distinct keys have distinct encodings. *)
Lemma base64_decode_encode (buf : list byte) :
  base64_decode (Buffer_toString_base64 buf) = buf.
Proof.
  induction buf as [|a|a b|a b c rest IH] using list_ind3.
  - reflexivity.
  - destruct (sextets_in_range a a a) as (H0 & _ & H1 & _).
    cbn [Buffer_toString_base64 base64_decode].
    change (Ascii.eqb "=" "=") with true. cbv iota.
    rewrite !char_sextet_char by assumption.
    destruct (first_pair (Byte.to_N a) 0) as (_ & _ & -> & _);
      [apply to_N_lt|lia|].
    now rewrite byte_of_to_N.
  - destruct (sextets_in_range a b b) as (H0 & H1 & _ & _ & H2 & _).
    cbn [Buffer_toString_base64 base64_decode].
    rewrite (sextet_char_not_pad _ H2).
    change (Ascii.eqb "=" "=") with true. cbv iota.
    rewrite !char_sextet_char by assumption.
    destruct (first_pair (Byte.to_N a) (Byte.to_N b)) as (_ & _ & -> & _);
      try apply to_N_lt.
    rewrite (middle_octet (Byte.to_N a) (Byte.to_N b) 0);
      try apply to_N_lt; [|lia].
    now rewrite !byte_of_to_N.
  - destruct (sextets_in_range a b c) as (H0 & H1 & _ & H2 & _ & H3).
    cbn [Buffer_toString_base64 base64_decode].
    rewrite (sextet_char_not_pad _ H2), (sextet_char_not_pad _ H3).
    cbv iota.
    rewrite !char_sextet_char by assumption.
    destruct (first_pair (Byte.to_N a) (Byte.to_N b)) as (_ & _ & -> & _);
      try apply to_N_lt.
    rewrite (middle_octet (Byte.to_N a) (Byte.to_N b) (Byte.to_N c));
      try apply to_N_lt.
    destruct (second_pair (Byte.to_N b) (Byte.to_N c)) as (_ & _ & _ & -> & _);
      try apply to_N_lt.
    now rewrite !byte_of_to_N, IH.
Qed.

Lemma base64_injective (k1 k2 : list byte) :
  Buffer_toString_base64 k1 = Buffer_toString_base64 k2 -> k1 = k2.
Proof.
  intros H. rewrite <- (base64_decode_encode k1), <- (base64_decode_encode k2).
  now rewrite H.
Qed.

Lemma base64_length (buf : list byte) :
  String.length (Buffer_toString_base64 buf) =
  (4 * ((List.length buf + 2) / 3))%nat.
Proof.
  induction buf as [|a|a b|a b c rest IH] using list_ind3;
    try reflexivity.
  cbn [Buffer_toString_base64 String.length List.length]. rewrite IH.
  replace (S (S (S (List.length rest))) + 2)%nat
    with (1 * 3 + (List.length rest + 2))%nat by lia.
  rewrite Nat.div_add_l by lia. lia.
Qed.

Lemma base64_nonempty (buf : list byte) :
  buf <> [] -> Buffer_toString_base64 buf <> "".
Proof.
  destruct buf as [|a [|b [|c rest]]]; [congruence| | |]; intros _ H; discriminate H.
Qed.

(** No character of an encoding is a colon. *)
Lemma base64_colon_free (buf : list byte) :
  string_forall not_colon (Buffer_toString_base64 buf) = true.
Proof.
  assert (Hs : forall n, (n < 64)%N -> not_colon (sextet_char n) = true).
  { intros n Hn. now apply base64_char_cases, sextet_char_base64. }
  induction buf as [|a|a b|a b c rest IH] using list_ind3.
  - reflexivity.
  - destruct (sextets_in_range a a a) as (H0 & _ & H1 & _).
    cbn [Buffer_toString_base64 string_forall].
    now rewrite !Hs by assumption.
  - destruct (sextets_in_range a b b) as (H0 & H1 & _ & _ & H2 & _).
    cbn [Buffer_toString_base64 string_forall].
    now rewrite !Hs by assumption.
  - destruct (sextets_in_range a b c) as (H0 & H1 & _ & H2 & _ & H3).
    cbn [Buffer_toString_base64 string_forall].
    now rewrite !Hs, IH by assumption.
Qed.

(** The padding only starts after [ceil (4 n / 3)] characters: the first
    [k] characters of the encoding of [n] bytes are alphabet characters
    whenever [3 k <= 4 n + 2]. *)
Lemma base64_prefix_alphabet (buf : list byte) :
  forall k, (3 * k <= 4 * List.length buf + 2)%nat ->
  string_forall is_base64_char (substring 0 k (Buffer_toString_base64 buf)) = true.
Proof.
  induction buf as [|a|a b|a b c rest IH] using list_ind3; intros k Hk.
  - destruct k; reflexivity.
  - destruct (sextets_in_range a a a) as (H0 & _ & H1 & _).
    cbn [List.length] in Hk.
    destruct k as [|[|[|k]]]; [| | |lia];
      cbn [Buffer_toString_base64 substring string_forall];
      now rewrite ?sextet_char_base64 by assumption.
  - destruct (sextets_in_range a b b) as (H0 & H1 & _ & _ & H2 & _).
    cbn [List.length] in Hk.
    destruct k as [|[|[|[|k]]]]; [| | | |lia];
      cbn [Buffer_toString_base64 substring string_forall];
      now rewrite ?sextet_char_base64 by assumption.
  - destruct (sextets_in_range a b c) as (H0 & H1 & _ & H2 & _ & H3).
    cbn [List.length] in Hk.
    destruct k as [|[|[|[|k]]]];
      cbn [Buffer_toString_base64 substring string_forall];
      rewrite ?sextet_char_base64 by assumption; try reflexivity.
    cbn [andb]. apply IH. lia.
Qed.

(** ** The token generator *)

Lemma draw_length (n : nat) (w : World) : List.length (draw n w) = n.
Proof. unfold draw. now rewrite length_map, length_seq. Qed.

Lemma slice_prefix `{Platform} (s : string) (n : Z) :
  0 <= n <= Z.of_nat (String.length s) ->
  String_slice s (VNumber (Int 0)) (VNumber (Int n)) = substring 0 (Z.to_nat n) s.
Proof.
  intros Hn. unfold String_slice, ToIntegerOrInfinity. cbn [ToNumber].
  change (0 <? 0) with false. cbv iota.
  destruct (n <? 0) eqn:Hneg; [apply Z.ltb_lt in Hneg; lia|].
  rewrite Z.min_l by lia. rewrite (Z.min_l n) by lia.
  rewrite Z.sub_0_r, Z.max_l by lia. reflexivity.
Qed.

Lemma base64_long_enough (buf : list byte) :
  (List.length buf <= String.length (Buffer_toString_base64 buf))%nat.
Proof.
  rewrite base64_length.
  pose proof (Nat.div_mod_eq (List.length buf + 2) 3) as E.
  pose proof (Nat.mod_upper_bound (List.length buf + 2) 3) as B.
  lia.
Qed.

(** The sizes [crypto.randomBytes] grants. *)
Lemma size_granted (n : Z) :
  (0 <=? n) && (n <=? MAX_INT32) = true <-> 0 <= n <= MAX_INT32.
Proof. rewrite andb_true_iff, Z.leb_le, Z.leb_le. tauto. Qed.

(** What a successful [uid] hands back. *)
Lemma uid_run `{Platform} (n : Z) (w : World) :
  0 <= n <= MAX_INT32 ->
  uid (VNumber (Int n)) w =
  (Normal (substring 0 (Z.to_nat n)
             (Buffer_toString_base64 (draw (Z.to_nat n) w))),
   consume (Z.to_nat n) w).
Proof.
  intros Hn. unfold uid, bind, randomBytes, ret.
  apply size_granted in Hn as Hle. rewrite Hle.
  rewrite slice_prefix; [reflexivity|].
  pose proof (base64_long_enough (draw (Z.to_nat n) w)) as L.
  rewrite draw_length in L. lia.
Qed.

(** A size outside the range makes [uid] throw before anything is drawn. *)
Lemma uid_refused `{Platform} (n : Z) (w : World) :
  ~ 0 <= n <= MAX_INT32 ->
  uid (VNumber (Int n)) w = (Throw (RangeError "size is out of range"), w).
Proof.
  intros Hn. unfold uid, bind, randomBytes.
  destruct ((0 <=? n) && (n <=? MAX_INT32)) eqn:Hle; [|reflexivity].
  apply size_granted in Hle. contradiction.
Qed.

Lemma uid_inv `{Platform} (len : value) (w w' : World) (s : string) :
  uid len w = (Normal s, w') ->
  exists n, len = VNumber (Int n) /\ 0 <= n <= MAX_INT32 /\
    s = substring 0 (Z.to_nat n) (Buffer_toString_base64 (draw (Z.to_nat n) w)) /\
    w' = consume (Z.to_nat n) w.
Proof.
  intros Hrun.
  destruct len as [| | b | [|n] | t | props];
    try (unfold uid, bind, randomBytes in Hrun; discriminate Hrun).
  destruct ((0 <=? n) && (n <=? MAX_INT32)) eqn:Hle.
  - apply size_granted in Hle.
    rewrite uid_run in Hrun by exact Hle. inversion Hrun; subst.
    exists n. repeat split; auto; apply Hle.
  - rewrite uid_refused in Hrun; [discriminate Hrun|].
    intros Hn. apply size_granted in Hn. congruence.
Qed.

(** A length whose base64 text fits a string is one [crypto.randomBytes]
    grants. *)
Lemma fitting_size_granted (L : Z) :
  0 <= L -> base64_size L <= MAX_STRING_LENGTH -> 0 <= L <= MAX_INT32.
Proof.
  unfold base64_size, MAX_STRING_LENGTH, MAX_INT32. intros H0 Hfit.
  pose proof (Z.div_mod (L + 2) 3 ltac:(lia)) as E.
  pose proof (Z.mod_pos_bound (L + 2) 3 ltac:(lia)) as B.
  change (2 ^ 28) with 268435456 in Hfit. change (2 ^ 31) with 2147483648.
  lia.
Qed.

Lemma token_length (n : nat) (w : World) :
  String.length (substring 0 n (Buffer_toString_base64 (draw n w))) = n.
Proof.
  apply length_substring_0.
  pose proof (base64_long_enough (draw n w)) as L.
  now rewrite draw_length in L.
Qed.

Lemma token_alphabet (n : nat) (w : World) :
  string_forall is_base64_char
    (substring 0 n (Buffer_toString_base64 (draw n w))) = true.
Proof. apply base64_prefix_alphabet. rewrite draw_length. lia. Qed.

(** C7, as amended.  For every positive integer [L] whose base64 text
    fits a string, [uid(L)] returns, having used up [L] bytes of the
    entropy source, and what it returns is a string of exactly [L]
    characters. *)
Theorem uid_length `{Platform} (L : Z) (w : World) :
  0 < L ->
  base64_size L <= MAX_STRING_LENGTH ->
  exists s,
    uid (VNumber (Int L)) w = (Normal s, consume (Z.to_nat L) w) /\
    Z.of_nat (String.length s) = L.
Proof.
  intros HL Hfit. eexists. split.
  - apply uid_run, fitting_size_granted; [lia|exact Hfit].
  - rewrite token_length. lia.
Qed.

(** C9, as amended.  Whatever the length asked for and whatever the
    entropy source gives, every character of a string that [uid] returns
    belongs to the standard base64 alphabet: letters, digits, ['+'] and
    ['/'], never the padding sign. *)
Theorem uid_alphabet `{Platform} (len : value) (w w' : World) (s : string) :
  uid len w = (Normal s, w') ->
  string_forall is_base64_char s = true.
Proof.
  intros Hrun.
  apply uid_inv in Hrun as (n & _ & _ & -> & _).
  apply token_alphabet.
Qed.

(** ** The constructor *)

Lemma Get_or_empty (options : value) (key : string) :
  Get (or_else options (VObject [])) key = Get options key.
Proof.
  unfold or_else.
  destruct options as [| | [] | [|z] | t | props]; try reflexivity.
  - cbn [ToBoolean]. destruct (z =? 0); reflexivity.
  - cbn [ToBoolean]. destruct (t =? "")%string; reflexivity.
Qed.

Lemma or_else_truthy (a b : value) :
  ToBoolean b = true -> ToBoolean (or_else a b) = true.
Proof. unfold or_else. destruct (ToBoolean a) eqn:Ha; auto. Qed.

Lemma truthy_not_zero (v : value) :
  ToBoolean v = true -> v <> VNumber (Int 0) /\ v <> VString "".
Proof. intros H; split; intros ->; discriminate H. Qed.

Lemma constructed_truthy (options : value) :
  ToBoolean (Hasher.iterations (NodePbkdf2 options)) = true /\
  ToBoolean (Hasher.saltLength (NodePbkdf2 options)) = true /\
  ToBoolean (Hasher.derivedKeyLength (NodePbkdf2 options)) = true /\
  ToBoolean (Hasher.digest (NodePbkdf2 options)) = true.
Proof. repeat split; now apply or_else_truthy. Qed.

(** C10.  The constructor takes the default for every option that is
    absent or falsy, so zero and the empty digest are replaced and no
    hasher holds a zero-valued numeric field. *)
Theorem constructor_defaults (options : value) :
  let h := NodePbkdf2 options in
  Hasher.iterations h =
    (if ToBoolean (Get options "iterations") then Get options "iterations"
     else VNumber (Int 10000)) /\
  Hasher.saltLength h =
    (if ToBoolean (Get options "saltLength") then Get options "saltLength"
     else VNumber (Int 12)) /\
  Hasher.derivedKeyLength h =
    (if ToBoolean (Get options "derivedKeyLength")
     then Get options "derivedKeyLength" else VNumber (Int 30)) /\
  Hasher.digest h =
    (if ToBoolean (Get options "digest") then Get options "digest"
     else VString "sha512") /\
  Hasher.iterations h <> VNumber (Int 0) /\
  Hasher.saltLength h <> VNumber (Int 0) /\
  Hasher.derivedKeyLength h <> VNumber (Int 0) /\
  Hasher.digest h <> VString "" /\
  NodePbkdf2 (VObject [("iterations", VNumber (Int 0));
                       ("saltLength", VNumber (Int 0));
                       ("derivedKeyLength", VNumber (Int 0));
                       ("digest", VString "")]) =
    Hasher.mk (VNumber (Int 10000)) (VNumber (Int 12)) (VNumber (Int 30))
      (VString "sha512") /\
  NodePbkdf2 VUndefined =
    Hasher.mk (VNumber (Int 10000)) (VNumber (Int 12)) (VNumber (Int 30))
      (VString "sha512").
Proof.
  intros h. subst h. unfold NodePbkdf2. cbn [Hasher.iterations
    Hasher.saltLength Hasher.derivedKeyLength Hasher.digest].
  rewrite !Get_or_empty.
  destruct (constructed_truthy options) as (Hi & Hs & Hk & Hd).
  unfold NodePbkdf2 in Hi, Hs, Hk, Hd. cbn [Hasher.iterations
    Hasher.saltLength Hasher.derivedKeyLength Hasher.digest] in Hi, Hs, Hk, Hd.
  rewrite !Get_or_empty in Hi, Hs, Hk, Hd.
  repeat split; try reflexivity;
    first [ now apply truthy_not_zero ].
Qed.

(** ** The record codec *)




(** Writing a record of two strings and two integers and reading it back
    gives the record, as soon as the delimiter cannot start inside either
    string or across its end. *)
Lemma deserialize_serialize (salt key : string) (k i : Z) (w : World) :
  includes (salt ++ ":") "::" = false ->
  includes (key ++ ":") "::" = false ->
  deserializeEncryptedPassword
    (VString (serializeEncryptedPassword
       (EncryptedPassword.mk (VString salt) (VString key)
          (VNumber (Int k)) (VNumber (Int i))))) w =
  (Normal (EncryptedPassword.mk (VString salt) (VString key)
             (VNumber (Int k)) (VNumber (Int i))), w).
Proof.
  intros Hs Hk.
  unfold deserializeEncryptedPassword, serializeEncryptedPassword, ret.
  cbn [EncryptedPassword.salt EncryptedPassword.derivedKey
       EncryptedPassword.derivedKeyLength EncryptedPassword.iterations ToString].
  rewrite split_four_fields; auto.
  - unfold item. cbn [nth_error].
    now rewrite !parseInt_Number_toString.
  - apply colon_free_cannot_start, Number_toString_colon_free.
  - apply colon_free_includes, Number_toString_colon_free.
Qed.

(** C3, as stated, fails: a salt ending in a colon contains no delimiter,
    yet its colon joins the delimiter behind it and the split moves one
    place to the left. *)
Lemma roundtrip_counterexample :
  stated_valid colon_record = true /\
  deserializeEncryptedPassword
    (VString (serializeEncryptedPassword colon_record)) sample_world =
  (Normal (EncryptedPassword.mk (VString "a") (VString ":b")
             (VNumber (Int 12)) (VNumber (Int 1000))), sample_world) /\
  fst (deserializeEncryptedPassword
         (VString (serializeEncryptedPassword colon_record)) sample_world)
  <> Normal colon_record.
Proof.
  split; [reflexivity|]. split; [reflexivity|].
  intros H. discriminate H.
Qed.

(** C3, as amended.  For every record whose salt and derived key are
    strings with no occurrence of ["::"] and no final colon, and whose
    derived-key length and iteration count are positive integers,
    deserializing the serialized record gives the record back, field for
    field. *)
Theorem roundtrip (r : EncryptedPassword.t) (w : World) :
  valid_record r = true ->
  deserializeEncryptedPassword (VString (serializeEncryptedPassword r)) w =
  (Normal r, w).
Proof.
  destruct r as [salt key klen iters]. unfold valid_record.
  cbn [EncryptedPassword.salt EncryptedPassword.derivedKey
       EncryptedPassword.derivedKeyLength EncryptedPassword.iterations].
  intros H. repeat (apply andb_true_iff in H as [H ?]).
  destruct salt as [| | | | salt |]; try discriminate.
  destruct key as [| | | | key |]; try discriminate.
  destruct klen as [| | | [|k] | |]; try discriminate.
  destruct iters as [| | | [|i] | |]; try discriminate.
  cbn [delimiter_safe] in *.
  repeat match goal with
         | Hd : _ && _ = true |- _ => apply andb_true_iff in Hd as [? ?]
         | Hd : negb _ = true |- _ => apply negb_true_iff in Hd
         end.
  apply deserialize_serialize; now apply delimiter_cannot_start.
Qed.


(** ** Encrypting and checking *)

Section Protocol.

Context {P : Platform} {contract : PBKDF2Contract P}.

(** Everything that is known about a record the library has produced. *)
Lemma produces_inv (self : Hasher.t) (password r : string) :
  produces self password r ->
  exists n salt key i k,
    Hasher.saltLength self = VNumber (Int n) /\ 0 <= n /\
    String.length salt = Z.to_nat n /\
    string_forall is_base64_char salt = true /\
    Hasher.iterations self = VNumber (Int i) /\
    Hasher.derivedKeyLength self = VNumber (Int k) /\
    0 < i /\ 0 <= k /\ List.length key = Z.to_nat k /\
    PBKDF2 (VString password) (VString salt) (VNumber (Int i))
      (VNumber (Int k)) (Hasher.digest self) = inr key /\
    r = serializeEncryptedPassword
          (EncryptedPassword.mk (VString salt)
             (VString (Buffer_toString_base64 key))
             (VNumber (Int k)) (VNumber (Int i))).
Proof.
  intros [(w & w' & Hrun)|(w & w' & Hrun)].
  - unfold encryptPasswordSync, bind in Hrun.
    destruct (uid (Hasher.saltLength self) w) as [[salt|e] w1] eqn:Hu;
      [|discriminate Hrun].
    apply uid_inv in Hu as (n & Hn & [Hn0 _] & -> & ->).
    unfold pbkdf2Sync, ret in Hrun.
    destruct (PBKDF2 _ _ _ _ _) as [e|key] eqn:Hk; [discriminate Hrun|].
    destruct (PBKDF2_ok _ _ _ _ _ _ Hk) as (i & k & Hi & Hkl & [? ?] & [? ?] & ?).
    rewrite Hi, Hkl in *. inversion Hrun; subst.
    exists n, (substring 0 (Z.to_nat n)
                 (Buffer_toString_base64 (draw (Z.to_nat n) w))), key, i, k.
    repeat split; auto using token_length, token_alphabet.
  - unfold encryptPassword, await_sync in Hrun.
    destruct (uid (Hasher.saltLength self) w) as [[salt|e] w1] eqn:Hu;
      [|discriminate Hrun].
    apply uid_inv in Hu as (n & Hn & [Hn0 _] & -> & ->).
    unfold pbkdf2, resolve, reject in Hrun.
    destruct (PBKDF2 _ _ _ _ _) as [e|key] eqn:Hk; [discriminate Hrun|].
    destruct (PBKDF2_ok _ _ _ _ _ _ Hk) as (i & k & Hi & Hkl & [? ?] & [? ?] & ?).
    rewrite Hi, Hkl in *. inversion Hrun; subst.
    exists n, (substring 0 (Z.to_nat n)
                 (Buffer_toString_base64 (draw (Z.to_nat n) w))), key, i, k.
    repeat split; auto using token_length, token_alphabet.
Qed.

End Protocol.

Section Checking.

Context {P : Platform}.

(** A check on a record that passes the guard is one key derivation and
    one comparison. *)
Lemma checkPasswordSync_run (self : Hasher.t) (password : string)
  (enc : value) (r : EncryptedPassword.t) (w w1 : World) :
  deserializeEncryptedPassword enc w = (Normal r, w1) ->
  wrong_format r = false ->
  checkPasswordSync self password enc w =
  match PBKDF2 (VString password) (EncryptedPassword.salt r)
          (EncryptedPassword.iterations r)
          (EncryptedPassword.derivedKeyLength r) (Hasher.digest self) with
  | inr key =>
      (Normal (StrictEquals (Buffer_toString_base64 key)
                 (EncryptedPassword.derivedKey r)),
       with_derivedKey key (log_call (check_call self password r) w1))
  | inl e => (Throw e, log_call (check_call self password r) w1)
  end.
Proof.
  intros Hd Hf. unfold checkPasswordSync, bind. rewrite Hd, Hf.
  unfold pbkdf2Sync, assign_derivedKey, check_call.
  destruct (PBKDF2 _ _ _ _ _) as [e|key]; [reflexivity|].
  unfold new_Buffer. destruct (StrictEquals _ _); reflexivity.
Qed.

Lemma checkPassword_run (self : Hasher.t) (password : string)
  (enc : value) (r : EncryptedPassword.t) (w w1 : World) :
  deserializeEncryptedPassword enc w = (Normal r, w1) ->
  wrong_format r = false ->
  checkPassword self password enc w =
  (match PBKDF2 (VString password) (EncryptedPassword.salt r)
           (EncryptedPassword.iterations r)
           (EncryptedPassword.derivedKeyLength r) (Hasher.digest self) with
   | inr key => Fulfilled (StrictEquals (Buffer_toString_base64 key)
                             (EncryptedPassword.derivedKey r))
   | inl e => Rejected e
   end,
   log_call (check_call self password r) w1).
Proof.
  intros Hd Hf. unfold checkPassword, await_sync. rewrite Hd, Hf.
  unfold pbkdf2, check_call.
  destruct (PBKDF2 _ _ _ _ _) as [e|key]; [reflexivity|].
  destruct (StrictEquals _ _); reflexivity.
Qed.

Lemma StrictEquals_true (s : string) (v : value) :
  StrictEquals s v = true <-> v = VString s.
Proof.
  destruct v; cbn [StrictEquals]; split; intros H; try discriminate H.
  - apply String.eqb_eq in H. now subst.
  - inversion H. apply String.eqb_refl.
Qed.

(** C2.  On a record that passes the guard, both check functions run one
    key derivation, on the candidate password, the record's own salt,
    iteration count and key length, and the hasher's digest; when it
    yields a key they return a boolean, which is [true] exactly when the
    base64 text of that key is the record's stored derived key.  A
    mismatch is the value [false], not an error.  The synchronous form
    leaves the key in the global [derivedKey]. *)
Theorem check_uses_record_parameters (self : Hasher.t) (password : string)
  (enc : value) (r : EncryptedPassword.t) (w w1 : World) (key : list byte) :
  deserializeEncryptedPassword enc w = (Normal r, w1) ->
  wrong_format r = false ->
  PBKDF2 (VString password) (EncryptedPassword.salt r)
    (EncryptedPassword.iterations r) (EncryptedPassword.derivedKeyLength r)
    (Hasher.digest self) = inr key ->
  exists b,
    checkPasswordSync self password enc w =
      (Normal b,
       with_derivedKey key (log_call (check_call self password r) w1)) /\
    checkPassword self password enc w =
      (Fulfilled b, log_call (check_call self password r) w1) /\
    (b = true <->
     EncryptedPassword.derivedKey r = VString (Buffer_toString_base64 key)).
Proof.
  intros Hd Hf Hk.
  exists (StrictEquals (Buffer_toString_base64 key)
            (EncryptedPassword.derivedKey r)).
  rewrite (checkPasswordSync_run _ _ _ _ _ _ Hd Hf).
  rewrite (checkPassword_run _ _ _ _ _ _ Hd Hf).
  rewrite Hk. repeat split; try apply StrictEquals_true.
Qed.

Lemma defective_falsy (v : value) : defective v = true -> ToBoolean v = false.
Proof.
  destruct v as [| | b | [|z] | s | props]; cbn [defective ToBoolean];
    intros H; try discriminate H; try reflexivity; now rewrite H.
Qed.

(** C5.  When any field of the deserialized record is missing, empty, zero
    or not a number, [checkPassword] rejects and [checkPasswordSync]
    throws, both with the format message, neither outcome is a boolean,
    and the world is untouched: no key derivation has run. *)
Theorem check_rejects_defective_record (self : Hasher.t) (password s : string)
  (r : EncryptedPassword.t) (w w1 : World) :
  deserializeEncryptedPassword (VString s) w = (Normal r, w1) ->
  defective (EncryptedPassword.salt r) ||
  defective (EncryptedPassword.derivedKey r) ||
  defective (EncryptedPassword.derivedKeyLength r) ||
  defective (EncryptedPassword.iterations r) = true ->
  checkPassword self password (VString s) w =
    (Rejected (Reason format_message), w) /\
  checkPasswordSync self password (VString s) w =
    (Throw (TypeError format_message), w) /\
  (forall b, fst (checkPassword self password (VString s) w) <> Fulfilled b) /\
  (forall b, fst (checkPasswordSync self password (VString s) w) <> Normal b) /\
  kdf_calls (snd (checkPassword self password (VString s) w)) = kdf_calls w /\
  kdf_calls (snd (checkPasswordSync self password (VString s) w)) = kdf_calls w.
Proof.
  intros Hd Hdef.
  assert (Hw : w1 = w).
  { unfold deserializeEncryptedPassword, ret in Hd. now inversion Hd. }
  subst w1.
  assert (Hf : wrong_format r = true).
  { unfold wrong_format.
    repeat (apply orb_true_iff in Hdef as [Hdef|Hdef]);
      apply defective_falsy in Hdef; rewrite Hdef; cbn [negb orb];
      now rewrite ?orb_true_r. }
  assert (Ha : checkPassword self password (VString s) w =
               (Rejected (Reason format_message), w)).
  { unfold checkPassword, await_sync. now rewrite Hd, Hf. }
  assert (Hs : checkPasswordSync self password (VString s) w =
               (Throw (TypeError format_message), w)).
  { unfold checkPasswordSync, bind. now rewrite Hd, Hf. }
  rewrite Ha, Hs. repeat split; intros b Hb; discriminate Hb.
Qed.

End Checking.

Section Records.

Context {P : Platform} {contract : PBKDF2Contract P}.

(** A produced record is the serialization of a base64 salt, a base64
    key and two integers, and reads back as such. *)
Lemma produced_record (self : Hasher.t) (password r : string) :
  produces self password r ->
  exists salt key,
    string_forall is_base64_char salt = true /\
    (ToBoolean (Hasher.saltLength self) = true -> salt <> "") /\
    (ToBoolean (Hasher.derivedKeyLength self) = true -> key <> []) /\
    ToBoolean (Hasher.iterations self) = true /\
    PBKDF2 (VString password) (VString salt) (Hasher.iterations self)
      (Hasher.derivedKeyLength self) (Hasher.digest self) = inr key /\
    r = serializeEncryptedPassword
          (EncryptedPassword.mk (VString salt)
             (VString (Buffer_toString_base64 key))
             (Hasher.derivedKeyLength self) (Hasher.iterations self)) /\
    forall w,
      deserializeEncryptedPassword (VString r) w =
      (Normal (EncryptedPassword.mk (VString salt)
                 (VString (Buffer_toString_base64 key))
                 (Hasher.derivedKeyLength self) (Hasher.iterations self)), w).
Proof.
  intros Hp.
  destruct (produces_inv self password r Hp)
    as (n & salt & key & i & k & Hn & Hn0 & Hlen & Hsalt & Hi & Hk & Hi0 & Hk0
        & Hkey & Hkdf & ->).
  exists salt, key. rewrite Hn, Hi, Hk. cbn [ToBoolean].
  repeat split; auto.
  - intros Hz. apply negb_true_iff, Z.eqb_neq in Hz.
    intros ->. cbn [String.length] in Hlen. lia.
  - intros Hz. apply negb_true_iff, Z.eqb_neq in Hz.
    intros ->. cbn [List.length] in Hkey. lia.
  - apply negb_true_iff, Z.eqb_neq. lia.
  - intros w. apply deserialize_serialize; apply colon_free_cannot_start.
    + apply (string_forall_impl is_base64_char); [|exact Hsalt].
      intros c Hc. now apply base64_char_cases.
    + apply base64_colon_free.
Qed.

(** C6.  In every record that [encryptPassword] or [encryptPasswordSync]
    produces, the salt and the derived key consist of base64 characters,
    hold no colon and so no delimiter, and the record string deserializes
    to exactly the four fields it was serialized from. *)
Theorem produced_record_is_delimiter_free (self : Hasher.t) (password r : string) :
  produces self password r ->
  exists salt key,
    let fields :=
      EncryptedPassword.mk (VString salt) (VString key)
        (Hasher.derivedKeyLength self) (Hasher.iterations self) in
    r = serializeEncryptedPassword fields /\
    string_forall not_colon salt = true /\
    string_forall not_colon key = true /\
    includes salt "::" = false /\
    includes key "::" = false /\
    forall w, deserializeEncryptedPassword (VString r) w = (Normal fields, w).
Proof.
  intros Hp.
  destruct (produced_record self password r Hp)
    as (salt & key & Hsalt & _ & _ & _ & _ & Hr & Hd).
  assert (Hc : string_forall not_colon salt = true).
  { apply (string_forall_impl is_base64_char); [|exact Hsalt].
    intros c Hc. now apply base64_char_cases. }
  exists salt, (Buffer_toString_base64 key). cbv zeta.
  repeat split; auto using base64_colon_free, colon_free_includes.
Qed.

(** How any hasher checks any candidate against a produced record: the
    guard passes, and the answer is the comparison of the candidate's key,
    derived under the producer's salt, iteration count and key length,
    with the key in the record. *)
Lemma check_of_produced (self : Hasher.t) (password r : string) :
  produces self password r ->
  ToBoolean (Hasher.saltLength self) = true ->
  ToBoolean (Hasher.derivedKeyLength self) = true ->
  exists salt key,
    let fields :=
      EncryptedPassword.mk (VString salt)
        (VString (Buffer_toString_base64 key))
        (Hasher.derivedKeyLength self) (Hasher.iterations self) in
    PBKDF2 (VString password) (VString salt) (Hasher.iterations self)
      (Hasher.derivedKeyLength self) (Hasher.digest self) = inr key /\
    (forall w, deserializeEncryptedPassword (VString r) w = (Normal fields, w)) /\
    forall verifier candidate w,
      checkPassword verifier candidate (VString r) w =
        (match PBKDF2 (VString candidate) (VString salt)
                 (Hasher.iterations self) (Hasher.derivedKeyLength self)
                 (Hasher.digest verifier) with
         | inr k => Fulfilled (Buffer_toString_base64 k =?
                               Buffer_toString_base64 key)%string
         | inl e => Rejected e
         end,
         log_call (check_call verifier candidate fields) w) /\
      checkPasswordSync verifier candidate (VString r) w =
        match PBKDF2 (VString candidate) (VString salt)
                (Hasher.iterations self) (Hasher.derivedKeyLength self)
                (Hasher.digest verifier) with
        | inr k =>
            (Normal (Buffer_toString_base64 k =?
                     Buffer_toString_base64 key)%string,
             with_derivedKey k
               (log_call (check_call verifier candidate fields) w))
        | inl e => (Throw e, log_call (check_call verifier candidate fields) w)
        end.
Proof.
  intros Hp Hs Hk.
  destruct (produced_record self password r Hp)
    as (salt & key & _ & Hsalt & Hkey & Hi & Hkdf & _ & Hd).
  exists salt, key. cbv zeta.
  split; [exact Hkdf|]. split; [exact Hd|].
  intros verifier candidate w.
  assert (Hf : wrong_format
                 (EncryptedPassword.mk (VString salt)
                    (VString (Buffer_toString_base64 key))
                    (Hasher.derivedKeyLength self) (Hasher.iterations self))
               = false).
  { unfold wrong_format.
    cbn [EncryptedPassword.salt EncryptedPassword.derivedKey
         EncryptedPassword.derivedKeyLength EncryptedPassword.iterations ToBoolean].
    rewrite Hi, Hk.
    apply Hsalt, String.eqb_neq in Hs. rewrite Hs.
    apply Hkey, base64_nonempty, String.eqb_neq in Hk. rewrite Hk.
    reflexivity. }
  rewrite (checkPassword_run _ _ _ _ _ _ (Hd w) Hf).
  rewrite (checkPasswordSync_run _ _ _ _ _ _ (Hd w) Hf).
  split; reflexivity.
Qed.

(** A hasher with the digest of the one that produced a record accepts
    the password the record was made from. *)
Lemma accepts_original (self verifier : Hasher.t) (password r : string) (w : World) :
  produces self password r ->
  ToBoolean (Hasher.saltLength self) = true ->
  ToBoolean (Hasher.derivedKeyLength self) = true ->
  Hasher.digest verifier = Hasher.digest self ->
  fst (checkPassword verifier password (VString r) w) = Fulfilled true /\
  fst (checkPasswordSync verifier password (VString r) w) = Normal true.
Proof.
  intros Hp Hs Hk Hdig.
  destruct (check_of_produced self password r Hp Hs Hk)
    as (salt & key & Hkdf & _ & Hcheck).
  destruct (Hcheck verifier password w) as [-> ->].
  rewrite Hdig, Hkdf, String.eqb_refl. split; reflexivity.
Qed.

(** C1.  Two hashers built from any two configurations that agree on the
    digest accept each other's records: whatever record either one
    produces for a password, the other's check of that password against
    it is [true]. *)
Theorem cross_configuration (options1 options2 : value) (p r : string) :
  let h1 := NodePbkdf2 options1 in
  let h2 := NodePbkdf2 options2 in
  Hasher.digest h1 = Hasher.digest h2 ->
  (produces h1 p r ->
   forall w, fst (checkPassword h2 p (VString r) w) = Fulfilled true /\
             fst (checkPasswordSync h2 p (VString r) w) = Normal true) /\
  (produces h2 p r ->
   forall w, fst (checkPassword h1 p (VString r) w) = Fulfilled true /\
             fst (checkPasswordSync h1 p (VString r) w) = Normal true).
Proof.
  intros h1 h2 Hdig.
  destruct (constructed_truthy options1) as (_ & Hs1 & Hk1 & _).
  destruct (constructed_truthy options2) as (_ & Hs2 & Hk2 & _).
  split; intros Hp w.
  - now apply (accepts_original h1 h2).
  - now apply (accepts_original h2 h1).
Qed.

(** C4, as amended.  A hasher accepts the password a record of its own was
    made from, through both check functions; and it answers [false] for
    that password with an ["x"] appended whenever the key-derivation
    function tells the two passwords apart on the record's parameters. *)
Theorem check_accepts_original_rejects_modified (options : value) (p r : string) :
  let self := NodePbkdf2 options in
  produces self p r ->
  forall w,
    fst (checkPassword self p (VString r) w) = Fulfilled true /\
    fst (checkPasswordSync self p (VString r) w) = Normal true /\
    (forall fields,
       fst (deserializeEncryptedPassword (VString r) w) = Normal fields ->
       separates (Hasher.digest self) p (p ++ "x") fields ->
       fst (checkPassword self (p ++ "x") (VString r) w) = Fulfilled false /\
       fst (checkPasswordSync self (p ++ "x") (VString r) w) = Normal false).
Proof.
  intros self Hp w.
  destruct (constructed_truthy options) as (_ & Hs & Hk & _).
  destruct (accepts_original self self p r w Hp Hs Hk eq_refl) as [Ha Hb].
  split; [exact Ha|]. split; [exact Hb|].
  intros fields Hfields (kp & kq & Hkp & Hkq & Hne).
  destruct (check_of_produced self p r Hp Hs Hk)
    as (salt & key & Hkdf & Hd & Hcheck).
  rewrite (Hd w) in Hfields. cbn [fst] in Hfields.
  inversion Hfields; subst fields; clear Hfields.
  assert (Ekp : @inr exn _ kp = inr key) by exact (eq_trans (eq_sym Hkp) Hkdf).
  inversion Ekp; subst kp; clear Ekp.
  destruct (Hcheck self (p ++ "x") w) as [-> ->]. cbn [fst].
  replace (PBKDF2 (VString (p ++ "x")) (VString salt) (Hasher.iterations self)
             (Hasher.derivedKeyLength self) (Hasher.digest self))
    with (@inr exn _ kq) by (symmetry; exact Hkq).
  assert (Hb64 : (Buffer_toString_base64 kq =? Buffer_toString_base64 key)%string
                 = false).
  { apply String.eqb_neq. intros E. apply base64_injective in E. congruence. }
  rewrite Hb64. split; reflexivity.
Qed.

End Records.

(** ** The SHA-512 key derivation *)

(** The implementation reproduces the published vectors: the SHA-512
    digest of ["abc"] (FIPS 180-4), and the PBKDF2-HMAC-SHA-512 key of
    password ["password"], salt ["salt"], one iteration, 64 octets. *)
Lemma sha512_abc :
  sha512 (utf8 "abc") =
  [
   0xdd; 0xaf; 0x35; 0xa1; 0x93; 0x61; 0x7a; 0xba; 0xcc; 0x41; 0x73;
   0x49; 0xae; 0x20; 0x41; 0x31; 0x12; 0xe6; 0xfa; 0x4e; 0x89; 0xa9;
   0x7e; 0xa2; 0x0a; 0x9e; 0xee; 0xe6; 0x4b; 0x55; 0xd3; 0x9a; 0x21;
   0x92; 0x99; 0x2a; 0x27; 0x4f; 0xc1; 0xa8; 0x36; 0xba; 0x3c; 0x23;
   0xa3; 0xfe; 0xeb; 0xbd; 0x45; 0x4d; 0x44; 0x23; 0x64; 0x3c; 0xe8;
   0x0e; 0x2a; 0x9a; 0xc9; 0x4f; 0xa5; 0x4c; 0xa4; 0x9f
  ]%N.
Proof. vm_compute. reflexivity. Qed.

Lemma pbkdf2_password_salt :
  pbkdf2_hmac_sha512 (utf8 "password") (utf8 "salt") 1 64 =
  [
   0x86; 0x7f; 0x70; 0xcf; 0x1a; 0xde; 0x02; 0xcf; 0xf3; 0x75; 0x25;
   0x99; 0xa3; 0xa5; 0x3d; 0xc4; 0xaf; 0x34; 0xc7; 0xa6; 0x69; 0x81;
   0x5a; 0xe5; 0xd5; 0x13; 0x55; 0x4e; 0x1c; 0x8c; 0xf2; 0x52; 0xc0;
   0x2d; 0x47; 0x0a; 0x28; 0x5a; 0x05; 0x01; 0xba; 0xd9; 0x99; 0xbf;
   0xe9; 0x43; 0xc0; 0x8f; 0x05; 0x02; 0x35; 0xd7; 0xd6; 0x8b; 0x1d;
   0xa5; 0x5e; 0x63; 0xf7; 0x3b; 0x60; 0xa5; 0x7f; 0xce
  ]%N.
Proof. vm_compute. reflexivity. Qed.

Lemma octets_of_word_length (width : nat) (x : N) :
  List.length (octets_of_word width x) = width.
Proof. unfold octets_of_word. now rewrite length_map, length_seq. Qed.

Lemma flat_map_length_const {A B} (f : A -> list B) (k : nat) (l : list A) :
  (forall x, List.length (f x) = k) ->
  List.length (flat_map f l) = (k * List.length l)%nat.
Proof.
  intros Hf. induction l as [|x l IH]; cbn [flat_map List.length]; [lia|].
  rewrite length_app, Hf, IH. lia.
Qed.

Lemma sha512_round_length (state : list N) (kw : N * N) :
  List.length state = 8%nat -> List.length (sha512_round state kw) = 8%nat.
Proof.
  destruct state as [|a [|b [|c [|d [|e [|f [|g [|h [|i rest]]]]]]]]];
    intros H; try discriminate H; reflexivity.
Qed.

Lemma sha512_rounds_length (kws : list (N * N)) :
  forall state, List.length state = 8%nat ->
  List.length (fold_left sha512_round kws state) = 8%nat.
Proof.
  induction kws as [|kw kws IH]; intros state H; cbn [fold_left]; [exact H|].
  apply IH. now apply sha512_round_length.
Qed.

Lemma sha512_compress_length (state block : list N) :
  List.length state = 8%nat -> List.length (sha512_compress state block) = 8%nat.
Proof.
  intros H. unfold sha512_compress.
  rewrite length_map, length_combine, sha512_rounds_length by exact H.
  rewrite H. reflexivity.
Qed.

Lemma sha512_blocks_length (blocks : list (list N)) :
  forall state, List.length state = 8%nat ->
  List.length (fold_left sha512_compress blocks state) = 8%nat.
Proof.
  induction blocks as [|b blocks IH]; intros state H; cbn [fold_left]; [exact H|].
  apply IH. now apply sha512_compress_length.
Qed.

Lemma sha512_length (msg : list N) : List.length (sha512 msg) = 64%nat.
Proof.
  unfold sha512.
  rewrite (flat_map_length_const _ 8) by apply octets_of_word_length.
  rewrite sha512_blocks_length; reflexivity.
Qed.

Lemma hmac_sha512_length (key msg : list N) :
  List.length (hmac_sha512 key msg) = 64%nat.
Proof. unfold hmac_sha512. apply sha512_length. Qed.

Lemma pbkdf2_iterate_length (password : list N) (c : nat) :
  forall u acc, List.length acc = 64%nat ->
  List.length (pbkdf2_iterate password c u acc) = 64%nat.
Proof.
  induction c as [|c IH]; intros u acc H; cbn [pbkdf2_iterate]; [exact H|].
  apply IH. unfold xor_octets.
  rewrite length_map, length_combine, H, hmac_sha512_length. reflexivity.
Qed.

Lemma pbkdf2_hmac_sha512_length (password salt : list N) (c keylen : nat) :
  List.length (pbkdf2_hmac_sha512 password salt c keylen) = keylen.
Proof.
  unfold pbkdf2_hmac_sha512.
  rewrite length_firstn, (flat_map_length_const _ 64), length_seq.
  - pose proof (Nat.div_mod_eq (keylen + 63) 64) as E.
    pose proof (Nat.mod_upper_bound (keylen + 63) 64) as B. lia.
  - intros i. unfold pbkdf2_block.
    apply pbkdf2_iterate_length, hmac_sha512_length.
Qed.

(** The SHA-512 key derivation honours the contract. *)
Lemma sha512_contract : PBKDF2Contract node_platform.
Proof.
  constructor. intros password salt iterations keylen digest key H.
  cbn [PBKDF2 node_platform] in H. unfold sha512_PBKDF2 in H.
  destruct password as [| | | | p |]; try discriminate H.
  destruct salt as [| | | | s |]; try discriminate H.
  destruct iterations as [| | | [|i] | |]; try discriminate H.
  destruct keylen as [| | | [|k] | |]; try discriminate H.
  destruct digest as [| | | | d |]; try discriminate H.
  destruct (negb (d =? "sha512")%string); [discriminate H|].
  destruct ((0 <? i) && (i <=? MAX_INT32) && (0 <=? k) && (k <=? MAX_INT32))
    eqn:E; [|discriminate H].
  destruct (k =? 0); [discriminate H|].
  repeat (apply andb_true_iff in E as [E ?]).
  inversion H. exists i, k. repeat split; try lia.
  now rewrite length_map, pbkdf2_hmac_sha512_length.
Qed.

(** ** Concrete runs *)

(** C9, as stated, fails: with random bytes [fb ff ff] the token is
    ["+//"], and neither ['+'] nor ['/'] can stand unescaped in a URL. *)
Lemma uid_not_url_safe :
  fst (@uid node_platform (VNumber (Int 3)) sample_world) = Normal "+//" /\
  string_forall url_safe "+//" = false.
Proof. split; reflexivity. Qed.

(** C4, as stated, fails: a hasher that keeps one byte of derived key
    derives the same byte for ["supersecret156"] and ["supersecret156x"]
    under the salt ["+///////////"], so the record made from the first
    password accepts the second. *)
Lemma short_key_collision :
  let self := NodePbkdf2 short_key_options in
  pbkdf2_hmac_sha512 (utf8 "supersecret156") (utf8 "+///////////") 1 1 =
    [0xdc]%N /\
  pbkdf2_hmac_sha512 (utf8 "supersecret156x") (utf8 "+///////////") 1 1 =
    [0xdc]%N /\
  fst (@encryptPasswordSync node_platform self "supersecret156" sample_world) =
    Normal short_key_record /\
  fst (@encryptPassword node_platform self "supersecret156" sample_world) =
    Fulfilled short_key_record /\
  fst (@checkPasswordSync node_platform self ("supersecret156" ++ "x")
         (VString short_key_record) sample_world) = Normal true /\
  fst (@checkPassword node_platform self ("supersecret156" ++ "x")
         (VString short_key_record) sample_world) = Fulfilled true.
Proof. vm_compute. repeat split; reflexivity. Qed.

(** C7, as stated, fails: [crypto.randomBytes] grants at most [2^31 - 1]
    bytes, so for the positive integer [2^31] [uid] throws a [RangeError]
    and returns no string. *)
Lemma uid_refuses_oversized_length :
  0 < oversized_length /\
  @uid node_platform (VNumber (Int oversized_length)) sample_world =
    (Throw (RangeError "size is out of range"), sample_world) /\
  forall s w',
    @uid node_platform (VNumber (Int oversized_length)) sample_world <>
    (Normal s, w').
Proof.
  split; [reflexivity|]. split; [reflexivity|].
  intros s w' H. discriminate H.
Qed.


Lemma uid_length_witness :
  (0 < 12 /\ base64_size 12 <= MAX_STRING_LENGTH) /\
  exists s,
    @uid node_platform (VNumber (Int 12)) sample_world =
      (Normal s, consume (Z.to_nat 12) sample_world) /\
    Z.of_nat (String.length s) = 12.
Proof.
  split; [split; [reflexivity|now vm_compute]|].
  apply (@uid_length node_platform 12 sample_world);
    [reflexivity|now vm_compute].
Defined.

Lemma uid_alphabet_witness :
  @uid node_platform (VNumber (Int 3)) sample_world =
    (Normal "+//", consume 3 sample_world) /\
  string_forall is_base64_char "+//" = true.
Proof.
  split; [reflexivity|].
  exact (@uid_alphabet node_platform (VNumber (Int 3)) sample_world
           (consume 3 sample_world) "+//" eq_refl).
Defined.

Lemma roundtrip_witness :
  valid_record test_record = true /\
  deserializeEncryptedPassword
    (VString (serializeEncryptedPassword test_record)) sample_world =
  (Normal test_record, sample_world).
Proof.
  split; [reflexivity|].
  apply (roundtrip test_record sample_world). reflexivity.
Defined.

Lemma supersecret_derivation :
  @PBKDF2 node_platform (VString "supersecret") (VString "+///////////")
    (VNumber (Int 2)) (VNumber (Int 30)) (VString "sha512") =
  inr supersecret_key.
Proof. vm_compute. reflexivity. Defined.

Lemma supersecretx_derivation :
  @PBKDF2 node_platform (VString "supersecretx") (VString "+///////////")
    (VNumber (Int 2)) (VNumber (Int 30)) (VString "sha512") =
  inr supersecretx_key.
Proof. vm_compute. reflexivity. Defined.

Lemma check_uses_record_parameters_witness :
  let self := NodePbkdf2 stronger_options in
  (deserializeEncryptedPassword (VString supersecret_record) sample_world =
     (Normal supersecret_fields, sample_world) /\
   wrong_format supersecret_fields = false /\
   @PBKDF2 node_platform (VString "supersecret")
     (EncryptedPassword.salt supersecret_fields)
     (EncryptedPassword.iterations supersecret_fields)
     (EncryptedPassword.derivedKeyLength supersecret_fields)
     (Hasher.digest self) = inr supersecret_key) /\
  exists b,
    @checkPasswordSync node_platform self "supersecret"
      (VString supersecret_record) sample_world =
      (Normal b,
       with_derivedKey supersecret_key
         (log_call (check_call self "supersecret" supersecret_fields)
            sample_world)) /\
    @checkPassword node_platform self "supersecret"
      (VString supersecret_record) sample_world =
      (Fulfilled b,
       log_call (check_call self "supersecret" supersecret_fields) sample_world) /\
    (b = true <->
     EncryptedPassword.derivedKey supersecret_fields =
     VString (Buffer_toString_base64 supersecret_key)).
Proof.
  intros self.
  split.
  - split; [reflexivity|]. split; [reflexivity|exact supersecret_derivation].
  - exact (@check_uses_record_parameters node_platform self "supersecret"
             (VString supersecret_record) supersecret_fields
             sample_world sample_world supersecret_key
             eq_refl eq_refl supersecret_derivation).
Defined.

Lemma check_rejects_defective_record_witness :
  let self := NodePbkdf2 quick_options in
  let fields :=
    EncryptedPassword.mk (VString "salt") (VString "key") (VNumber (Int 30))
      (VNumber NaN) in
  (deserializeEncryptedPassword (VString "salt::key::30") sample_world =
     (Normal fields, sample_world) /\
   defective (EncryptedPassword.salt fields) ||
   defective (EncryptedPassword.derivedKey fields) ||
   defective (EncryptedPassword.derivedKeyLength fields) ||
   defective (EncryptedPassword.iterations fields) = true) /\
  @checkPassword node_platform self "supersecret" (VString "salt::key::30")
    sample_world = (Rejected (Reason format_message), sample_world) /\
  @checkPasswordSync node_platform self "supersecret" (VString "salt::key::30")
    sample_world = (Throw (TypeError format_message), sample_world).
Proof.
  intros self fields.
  split; [split; reflexivity|].
  destruct (@check_rejects_defective_record node_platform self "supersecret"
              "salt::key::30" fields sample_world sample_world
              eq_refl eq_refl) as (Ha & Hs & _).
  split; [exact Ha|exact Hs].
Defined.

Lemma supersecret_produced :
  @produces node_platform (NodePbkdf2 quick_options) "supersecret"
    supersecret_record.
Proof.
  left. exists sample_world.
  exists (log_call
            (mkKdfCall (VString "supersecret") (VString "+///////////")
               (VNumber (Int 2)) (VNumber (Int 30)) (VString "sha512"))
            (consume 12 sample_world)).
  vm_compute. reflexivity.
Defined.

Lemma produced_record_is_delimiter_free_witness :
  @produces node_platform (NodePbkdf2 quick_options) "supersecret"
    supersecret_record /\
  exists salt key,
    let fields :=
      EncryptedPassword.mk (VString salt) (VString key)
        (VNumber (Int 30)) (VNumber (Int 2)) in
    supersecret_record = serializeEncryptedPassword fields /\
    string_forall not_colon salt = true /\
    string_forall not_colon key = true /\
    includes salt "::" = false /\
    includes key "::" = false /\
    forall w, deserializeEncryptedPassword (VString supersecret_record) w =
              (Normal fields, w).
Proof.
  split; [exact supersecret_produced|].
  exact (@produced_record_is_delimiter_free node_platform sha512_contract
           (NodePbkdf2 quick_options) "supersecret" supersecret_record
           supersecret_produced).
Defined.

Lemma cross_configuration_witness :
  let h1 := NodePbkdf2 quick_options in
  let h2 := NodePbkdf2 stronger_options in
  (Hasher.digest h1 = Hasher.digest h2 /\
   @produces node_platform h1 "supersecret" supersecret_record) /\
  fst (@checkPassword node_platform h2 "supersecret"
         (VString supersecret_record) sample_world) = Fulfilled true /\
  fst (@checkPasswordSync node_platform h2 "supersecret"
         (VString supersecret_record) sample_world) = Normal true.
Proof.
  intros h1 h2.
  split; [split; [reflexivity|exact supersecret_produced]|].
  exact (proj1 (@cross_configuration node_platform sha512_contract
                  quick_options stronger_options "supersecret"
                  supersecret_record eq_refl)
           supersecret_produced sample_world).
Defined.

Lemma supersecret_separated :
  @separates node_platform (VString "sha512") "supersecret"
    ("supersecret" ++ "x") supersecret_fields.
Proof.
  exists supersecret_key, supersecretx_key.
  split; [exact supersecret_derivation|].
  split; [exact supersecretx_derivation|].
  discriminate.
Defined.

Lemma check_accepts_original_rejects_modified_witness :
  let self := NodePbkdf2 quick_options in
  (@produces node_platform self "supersecret" supersecret_record /\
   fst (deserializeEncryptedPassword (VString supersecret_record) sample_world) =
     Normal supersecret_fields /\
   @separates node_platform (Hasher.digest self) "supersecret"
     ("supersecret" ++ "x") supersecret_fields) /\
  fst (@checkPassword node_platform self "supersecret"
         (VString supersecret_record) sample_world) = Fulfilled true /\
  fst (@checkPasswordSync node_platform self "supersecret"
         (VString supersecret_record) sample_world) = Normal true /\
  fst (@checkPassword node_platform self ("supersecret" ++ "x")
         (VString supersecret_record) sample_world) = Fulfilled false /\
  fst (@checkPasswordSync node_platform self ("supersecret" ++ "x")
         (VString supersecret_record) sample_world) = Normal false.
Proof.
  intros self.
  split.
  - split; [exact supersecret_produced|].
    split; [reflexivity|exact supersecret_separated].
  - destruct (@check_accepts_original_rejects_modified node_platform
                sha512_contract quick_options "supersecret"
                supersecret_record supersecret_produced sample_world)
      as (Ha & Hs & Hx).
    destruct (Hx supersecret_fields eq_refl supersecret_separated) as (Hxa & Hxs).
    split; [exact Ha|]. split; [exact Hs|]. split; [exact Hxa|exact Hxs].
Defined.

(** * Further properties *)

Section Forms.

Context {P : Platform}.

(** Either form of encryption succeeds exactly when the other does, with
    the same record and world. *)
Lemma encrypt_success_forms (self : Hasher.t) (password r : string)
  (w w' : World) :
  encryptPassword self password w = (Fulfilled r, w') <->
  encryptPasswordSync self password w = (Normal r, w').
Proof.
  unfold encryptPassword, encryptPasswordSync, await_sync, bind.
  destruct (uid (Hasher.saltLength self) w) as [[salt|e] w1];
    [|split; intros H; discriminate H].
  unfold pbkdf2, pbkdf2Sync, resolve, reject, ret.
  destruct (PBKDF2 _ _ _ _ _) as [e|key]; split; intros H;
    try discriminate H; now inversion H.
Qed.

(** X1.  The two forms of encryption are one computation: the promise of
    [encryptPassword] settles the way [encryptPasswordSync] completes,
    fulfilled with the same record or rejected with the same error, and
    leaves the same world. *)
Theorem encrypt_forms_agree (self : Hasher.t) (password : string) (w : World) :
  encryptPassword self password w =
  (settle (fst (encryptPasswordSync self password w)),
   snd (encryptPasswordSync self password w)).
Proof.
  unfold encryptPassword, encryptPasswordSync, await_sync, bind.
  destruct (uid (Hasher.saltLength self) w) as [[salt|e] w1]; [|reflexivity].
  unfold pbkdf2, pbkdf2Sync, resolve, reject, ret.
  destruct (PBKDF2 _ _ _ _ _) as [e|key]; reflexivity.
Qed.

(** X2.  The two forms of checking answer alike: the same boolean, or the
    same error, except that a record of the wrong format makes the
    synchronous form throw a [TypeError] where the promise is rejected
    with the bare message.  The promise never touches the global
    [derivedKey].  The synchronous form, when it returns a boolean, leaves
    the world of the promise with the key it has just derived stored in
    that global; when it throws, it leaves the very world of the
    promise. *)
Theorem check_forms_agree (self : Hasher.t) (password : string)
  (encryptedPassword : value) (w : World) :
  let sync := checkPasswordSync self password encryptedPassword w in
  let async := checkPassword self password encryptedPassword w in
  global_derivedKey (snd async) = global_derivedKey w /\
  match fst sync with
  | Normal b =>
      fst async = Fulfilled b /\
      exists c key,
        kdf_calls (snd async) = c :: kdf_calls w /\
        PBKDF2 (call_password c) (call_salt c) (call_iterations c)
          (call_keylen c) (call_digest c) = inr key /\
        snd sync = with_derivedKey key (snd async)
  | Throw e =>
      snd sync = snd async /\
      (fst async = Rejected e \/
       (e = TypeError format_message /\
        fst async = Rejected (Reason format_message)))
  end.
Proof.
  unfold checkPasswordSync, checkPassword, await_sync, bind.
  destruct encryptedPassword as [| | b | n | s | props];
    try (split; [reflexivity|split; [reflexivity|left; reflexivity]]).
  cbn [deserializeEncryptedPassword]. unfold ret.
  destruct (wrong_format _).
  - split; [reflexivity|]. split; [reflexivity|]. right. split; reflexivity.
  - unfold pbkdf2, pbkdf2Sync, assign_derivedKey, resolve, reject.
    destruct (PBKDF2 _ _ _ _ _) as [e|key] eqn:Hk.
    + split; [reflexivity|]. split; [reflexivity|left; reflexivity].
    + unfold new_Buffer.
      destruct (StrictEquals _ _); (split; [reflexivity|]);
        (split; [reflexivity|]); eexists _, key;
        (split; [reflexivity|]); (split; [exact Hk|reflexivity]).
Qed.

(** X3.  Checking never draws from the entropy source, and it runs at most
    one key derivation, on the candidate password and the hasher's digest,
    the same one in both forms.  The only other effect is the write of the
    synchronous form to the global [derivedKey], which takes place exactly
    when that form returns a boolean. *)
Theorem check_effects (self : Hasher.t) (password : string)
  (encryptedPassword : value) (w : World) :
  let sync := checkPasswordSync self password encryptedPassword w in
  let async := checkPassword self password encryptedPassword w in
  entropy (snd sync) = entropy w /\
  entropy (snd async) = entropy w /\
  kdf_calls (snd sync) = kdf_calls (snd async) /\
  (kdf_calls (snd sync) = kdf_calls w \/
   exists c, kdf_calls (snd sync) = c :: kdf_calls w /\
             call_password c = VString password /\
             call_digest c = Hasher.digest self) /\
  global_derivedKey (snd async) = global_derivedKey w /\
  match fst sync with
  | Normal _ =>
      exists c key,
        kdf_calls (snd sync) = c :: kdf_calls w /\
        PBKDF2 (call_password c) (call_salt c) (call_iterations c)
          (call_keylen c) (call_digest c) = inr key /\
        global_derivedKey (snd sync) = Some key
  | Throw _ => global_derivedKey (snd sync) = global_derivedKey w
  end.
Proof.
  unfold checkPasswordSync, checkPassword, await_sync, bind.
  destruct encryptedPassword as [| | b | n | s | props];
    try (repeat split; left; reflexivity).
  cbn [deserializeEncryptedPassword]. unfold ret.
  destruct (wrong_format _); [repeat split; left; reflexivity|].
  unfold pbkdf2, pbkdf2Sync, assign_derivedKey, resolve, reject.
  destruct (PBKDF2 _ _ _ _ _) as [e|key] eqn:Hk.
  - repeat split. right. eexists. repeat split.
  - unfold new_Buffer.
    destruct (StrictEquals _ _);
      (do 3 (split; [reflexivity|]));
      (split; [right; eexists; repeat split|]);
      (split; [reflexivity|]); eexists _, key;
      (split; [reflexivity|]); (split; [exact Hk|reflexivity]).
Qed.


(** X5.  A successful encryption draws exactly [saltLength] bytes from the
    entropy source and runs exactly one key derivation, on the password,
    the fresh salt and the hasher's own iteration count, key length and
    digest. *)
Theorem encrypt_effects (self : Hasher.t) (password r : string) (w w' : World) :
  encryptPasswordSync self password w = (Normal r, w') \/
  encryptPassword self password w = (Fulfilled r, w') ->
  exists n salt,
    Hasher.saltLength self = VNumber (Int n) /\ 0 <= n /\
    Z.of_nat (String.length salt) = n /\
    w' = log_call (encrypt_call self password salt) (consume (Z.to_nat n) w).
Proof.
  intros H.
  assert (Hs : encryptPasswordSync self password w = (Normal r, w')).
  { destruct H as [H|H]; [exact H|]. now apply encrypt_success_forms. }
  clear H. unfold encryptPasswordSync, bind in Hs.
  destruct (uid (Hasher.saltLength self) w) as [[salt|e] w1] eqn:Hu;
    [|discriminate Hs].
  apply uid_inv in Hu as (n & Hn & [Hn0 _] & Hsalt & ->).
  unfold pbkdf2Sync, ret in Hs.
  destruct (PBKDF2 _ _ _ _ _) as [e|key]; [discriminate Hs|].
  inversion Hs. exists n, salt. repeat split; auto.
  rewrite Hsalt, token_length. lia.
Qed.

(** X6.  When [saltLength] is not a size [crypto.randomBytes] accepts, that
    is when it is a negative integer, an integer above [2^31 - 1], [NaN]
    or no number at all, both forms of encryption fail with the error of
    [crypto.randomBytes], whatever the password; the world is untouched:
    no entropy is drawn and no key derivation runs. *)
Theorem encrypt_refuses_bad_salt_length (self : Hasher.t) (password : string)
  (w : World) :
  accepted_size (Hasher.saltLength self) = false ->
  exists e,
    encryptPasswordSync self password w = (Throw e, w) /\
    encryptPassword self password w = (Rejected e, w).
Proof.
  intros H. unfold encryptPasswordSync, encryptPassword, await_sync, bind, uid.
  unfold bind, randomBytes.
  destruct (Hasher.saltLength self) as [| | b | [|n] | s | props];
    try (eexists; split; reflexivity).
  cbn [accepted_size] in H. rewrite H. eexists; split; reflexivity.
Qed.

End Forms.

(** ** The entropy in a token *)

Lemma firstn_seq_le (m : nat) :
  forall s n, (m <= n)%nat -> firstn m (seq s n) = seq s m.
Proof.
  induction m as [|m IH]; intros s n H; [reflexivity|].
  destruct n as [|n]; [lia|]. cbn [seq firstn]. rewrite IH by lia. reflexivity.
Qed.

Lemma firstn_draw (m n : nat) (w : World) :
  (m <= n)%nat -> firstn m (draw n w) = draw m w.
Proof.
  intros H. unfold draw. now rewrite firstn_map, firstn_seq_le.
Qed.

Lemma draw_same_entropy (m : nat) (w1 w2 : World) :
  same_entropy m w1 w2 <-> draw m w1 = draw m w2.
Proof.
  unfold same_entropy, draw. rewrite map_ext_in_iff. split.
  - intros H i Hi. apply H. apply in_seq in Hi. lia.
  - intros H i Hi. apply H. apply in_seq. lia.
Qed.

Lemma substring_0_0 (s : string) : substring 0 0 s = "".
Proof. destruct s; reflexivity. Qed.

Lemma substring_0_substring_0 (s : string) :
  forall j k, (j <= k)%nat -> substring 0 j (substring 0 k s) = substring 0 j s.
Proof.
  induction s as [|c s IH]; intros [|j] [|k] H; try reflexivity; try lia.
  cbn [substring]. rewrite IH by lia. reflexivity.
Qed.

(** The first [k] characters of an encoding only depend on the first
    [ceil (3 k / 4)] bytes. *)
Lemma base64_prefix_firstn (buf : list byte) :
  forall m k, (3 * k <= 4 * m)%nat ->
  substring 0 k (Buffer_toString_base64 buf) =
  substring 0 k (Buffer_toString_base64 (firstn m buf)).
Proof.
  induction buf as [|a|a b|a b c rest IH] using list_ind3; intros m k H.
  - now rewrite firstn_nil.
  - destruct m as [|m].
    + assert (k = 0%nat) as -> by lia. now rewrite !substring_0_0.
    + cbn [firstn]. now rewrite firstn_nil.
  - destruct m as [|[|m]].
    + assert (k = 0%nat) as -> by lia. now rewrite !substring_0_0.
    + destruct k as [|[|k]]; [reflexivity|reflexivity|lia].
    + cbn [firstn]. now rewrite firstn_nil.
  - destruct m as [|[|[|m]]].
    + assert (k = 0%nat) as -> by lia. now rewrite !substring_0_0.
    + destruct k as [|[|k]]; [reflexivity|reflexivity|lia].
    + destruct k as [|[|[|k]]]; [reflexivity|reflexivity|reflexivity|lia].
    + cbn [firstn Buffer_toString_base64].
      destruct k as [|[|[|[|k]]]]; try reflexivity.
      cbn [substring]. rewrite (IH m k) by lia. reflexivity.
Qed.

(** Whole groups of four characters are the encoding of whole groups of
    three bytes. *)
Lemma base64_whole_groups (j : nat) :
  forall buf, (3 * j <= List.length buf)%nat ->
  substring 0 (4 * j) (Buffer_toString_base64 buf) =
  Buffer_toString_base64 (firstn (3 * j) buf).
Proof.
  induction j as [|j IH]; intros buf H.
  - cbn [Nat.mul firstn]. now rewrite substring_0_0.
  - destruct buf as [|a [|b [|c rest]]]; cbn [List.length] in H; try lia.
    replace (4 * S j)%nat with (S (S (S (S (4 * j))))) by lia.
    replace (3 * S j)%nat with (S (S (S (3 * j)))) by lia.
    cbn [firstn Buffer_toString_base64 substring].
    rewrite IH by lia. reflexivity.
Qed.

(** Equal tokens come from draws that agree on their whole groups. *)
Lemma token_shows_whole_groups (n : nat) (w1 w2 : World) :
  substring 0 n (Buffer_toString_base64 (draw n w1)) =
  substring 0 n (Buffer_toString_base64 (draw n w2)) ->
  same_entropy (3 * (n / 4)) w1 w2.
Proof.
  intros Htok.
  pose proof (Nat.div_mod_eq n 4) as E.
  apply draw_same_entropy.
  apply (f_equal (substring 0 (4 * (n / 4)))) in Htok.
  rewrite !substring_0_substring_0 in Htok by lia.
  rewrite !base64_whole_groups in Htok by (rewrite draw_length; lia).
  apply base64_injective in Htok.
  rewrite !firstn_draw in Htok by lia. exact Htok.
Qed.

Section Tokens.

Context {P : Platform}.

(** X7.  A token of [L] characters shows only the first [ceil (3 L / 4)]
    of the [L] random bytes drawn for it: two entropy sources that agree
    on those bytes give the same token.  A salt of 12 characters carries 9
    random bytes. *)
Theorem uid_uses_three_quarters (L : Z) (w1 w2 : World) :
  0 <= L ->
  same_entropy (Z.to_nat ((3 * L + 3) / 4)) w1 w2 ->
  fst (uid (VNumber (Int L)) w1) = fst (uid (VNumber (Int L)) w2).
Proof.
  intros HL Hsame.
  destruct (Z.le_gt_cases L MAX_INT32) as [Hmax|Hmax];
    [|now rewrite !uid_refused by lia].
  rewrite !uid_run by (split; assumption). cbn [fst]. f_equal.
  set (n := Z.to_nat L). set (m := Z.to_nat ((3 * L + 3) / 4)) in *.
  assert (Hm : (3 * n <= 4 * m)%nat /\ (m <= n)%nat).
  { subst n m.
    pose proof (Z.div_mod (3 * L + 3) 4 ltac:(lia)) as E.
    pose proof (Z.mod_pos_bound (3 * L + 3) 4 ltac:(lia)) as B.
    split; lia. }
  destruct Hm as [Hk Hle].
  rewrite (base64_prefix_firstn (draw n w1) m n Hk).
  rewrite (base64_prefix_firstn (draw n w2) m n Hk).
  rewrite !firstn_draw by exact Hle.
  apply draw_same_entropy in Hsame. now rewrite Hsame.
Qed.

(** X8.  Conversely a token determines the random bytes of its whole
    groups: two entropy sources that give the same token of [L]
    characters agree on their first [3 * floor (L / 4)] bytes, so draws
    that differ there give different tokens. *)
Theorem uid_shows_whole_groups (L : Z) (s : string) (w1 w1' w2 w2' : World) :
  uid (VNumber (Int L)) w1 = (Normal s, w1') ->
  uid (VNumber (Int L)) w2 = (Normal s, w2') ->
  same_entropy (Z.to_nat (3 * (L / 4))) w1 w2.
Proof.
  intros H1 H2.
  apply uid_inv in H1 as (n1 & E1 & [HL _] & Hs1 & _).
  apply uid_inv in H2 as (n2 & E2 & _ & Hs2 & _).
  inversion E1; subst n1. inversion E2; subst n2. clear E1 E2.
  assert (Htok := eq_trans (eq_sym Hs1) Hs2).
  apply token_shows_whole_groups in Htok.
  replace (Z.to_nat (3 * (L / 4))) with (3 * (Z.to_nat L / 4))%nat; [exact Htok|].
  assert (0 <= L / 4) by (apply Z.div_pos; lia).
  rewrite Z2Nat.inj_mul by lia.
  rewrite (Z2Nat.inj_div L 4) by lia. reflexivity.
Qed.

End Tokens.

(** ** More on the record codec *)

(** What [valid_record] says, spelled out. *)
Lemma valid_record_fields (r : EncryptedPassword.t) :
  valid_record r = true ->
  exists salt key k i,
    r = EncryptedPassword.mk (VString salt) (VString key)
          (VNumber (Int k)) (VNumber (Int i)) /\
    includes (salt ++ ":") "::" = false /\
    includes (key ++ ":") "::" = false.
Proof.
  destruct r as [salt key klen iters]. unfold valid_record.
  cbn [EncryptedPassword.salt EncryptedPassword.derivedKey
       EncryptedPassword.derivedKeyLength EncryptedPassword.iterations].
  intros H. repeat (apply andb_true_iff in H as [H ?]).
  destruct salt as [| | | | salt |]; try discriminate.
  destruct key as [| | | | key |]; try discriminate.
  destruct klen as [| | | [|k] | |]; try discriminate.
  destruct iters as [| | | [|i] | |]; try discriminate.
  cbn [delimiter_safe] in *.
  repeat match goal with
         | Hd : _ && _ = true |- _ => apply andb_true_iff in Hd as [? ?]
         | Hd : negb _ = true |- _ => apply negb_true_iff in Hd
         end.
  exists salt, key, k, i. repeat split; now apply delimiter_cannot_start.
Qed.

(** Items behind the fourth do not reach the record. *)
Lemma deserialize_serialize_trailing (salt key : string) (k i : Z)
  (extra : string) (w : World) :
  includes (salt ++ ":") "::" = false ->
  includes (key ++ ":") "::" = false ->
  deserializeEncryptedPassword
    (VString (serializeEncryptedPassword
       (EncryptedPassword.mk (VString salt) (VString key)
          (VNumber (Int k)) (VNumber (Int i))) ++ "::" ++ extra)) w =
  (Normal (EncryptedPassword.mk (VString salt) (VString key)
             (VNumber (Int k)) (VNumber (Int i))), w).
Proof.
  intros Hs Hk.
  unfold deserializeEncryptedPassword, serializeEncryptedPassword, ret.
  cbn [EncryptedPassword.salt EncryptedPassword.derivedKey
       EncryptedPassword.derivedKeyLength EncryptedPassword.iterations ToString].
  rewrite !append_assoc.
  unfold String_split. cbn [String.eqb].
  rewrite (split_from_field salt "" _ Hs).
  rewrite (split_from_field key "" _ Hk).
  rewrite (split_from_field (Number_toString (Int k)) "" _)
    by apply colon_free_cannot_start, Number_toString_colon_free.
  rewrite (split_from_field (Number_toString (Int i)) "" _)
    by apply colon_free_cannot_start, Number_toString_colon_free.
  unfold item. cbn [nth_error append].
  now rewrite !parseInt_Number_toString.
Qed.

(** X9.  Whatever follows a fourth delimiter is ignored: a valid record's
    serialization with ["::"] and any text appended still deserializes to
    the record. *)
Theorem trailing_fields_ignored (r : EncryptedPassword.t) (extra : string)
  (w : World) :
  valid_record r = true ->
  deserializeEncryptedPassword
    (VString (serializeEncryptedPassword r ++ "::" ++ extra)) w =
  (Normal r, w).
Proof.
  intros H.
  destruct (valid_record_fields r H) as (salt & key & k & i & -> & Hs & Hk).
  now apply deserialize_serialize_trailing.
Qed.

(** X10.  Serialization loses nothing on valid records: two valid records
    with the same serialized form are the same record. *)
Theorem serialize_injective (r1 r2 : EncryptedPassword.t) :
  valid_record r1 = true -> valid_record r2 = true ->
  serializeEncryptedPassword r1 = serializeEncryptedPassword r2 ->
  r1 = r2.
Proof.
  intros H1 H2 E.
  destruct (valid_record_fields r1 H1) as (s1 & k1 & n1 & i1 & -> & Hs1 & Hk1).
  destruct (valid_record_fields r2 H2) as (s2 & k2 & n2 & i2 & -> & Hs2 & Hk2).
  pose proof (deserialize_serialize s1 k1 n1 i1 sample_world Hs1 Hk1) as D1.
  pose proof (deserialize_serialize s2 k2 n2 i2 sample_world Hs2 Hk2) as D2.
  rewrite E, D2 in D1. now inversion D1.
Qed.

Section Shape.

Context {P : Platform} {contract : PBKDF2Contract P}.

(** X11.  The shape of a produced record: its salt has exactly
    [saltLength] characters, its derived key is the base64 text of
    [derivedKeyLength] bytes and so has [4 * ceil (derivedKeyLength / 3)]
    characters, and its two numbers are the hasher's, which are
    integers. *)
Theorem produced_record_shape (self : Hasher.t) (password r : string) :
  produces self password r ->
  exists n k i salt key,
    Hasher.saltLength self = VNumber (Int n) /\
    Hasher.derivedKeyLength self = VNumber (Int k) /\
    Hasher.iterations self = VNumber (Int i) /\
    0 <= n /\ 0 <= k /\ 0 < i /\
    r = salt ++ "::" ++ key ++ "::" ++ Number_toString (Int k) ++ "::" ++
        Number_toString (Int i) /\
    Z.of_nat (String.length salt) = n /\
    String.length key = (4 * ((Z.to_nat k + 2) / 3))%nat.
Proof.
  intros Hp.
  destruct (produces_inv self password r Hp)
    as (n & salt & key & i & k & Hn & Hn0 & Hlen & _ & Hi & Hk & Hi0 & Hk0
        & Hkey & _ & ->).
  exists n, k, i, salt, (Buffer_toString_base64 key).
  repeat split; auto; try lia.
  rewrite base64_length, Hkey. reflexivity.
Qed.

(** X12.  A produced record stays verifiable with anything appended
    behind a further delimiter: the hasher that made it still answers
    [true] for its password. *)
Theorem trailing_field_still_verifies (options : value) (password r extra : string)
  (w : World) :
  let self := NodePbkdf2 options in
  produces self password r ->
  fst (checkPassword self password (VString (r ++ "::" ++ extra)) w) =
    Fulfilled true /\
  fst (checkPasswordSync self password (VString (r ++ "::" ++ extra)) w) =
    Normal true.
Proof.
  intros self Hp.
  destruct (constructed_truthy options) as (Hit & Hs & Hk & _).
  change (ToBoolean (Hasher.iterations self) = true) in Hit.
  change (ToBoolean (Hasher.saltLength self) = true) in Hs.
  change (ToBoolean (Hasher.derivedKeyLength self) = true) in Hk.
  destruct (produces_inv self password r Hp)
    as (n & salt & key & i & k & Hn & Hn0 & Hlen & Hsalt & Hi & Hkl & Hi0 & Hk0
        & Hkey & Hkdf & ->).
  rewrite Hn in Hs. rewrite Hkl in Hk. cbn [ToBoolean] in Hs, Hk.
  apply negb_true_iff, Z.eqb_neq in Hs. apply negb_true_iff, Z.eqb_neq in Hk.
  assert (Hd := deserialize_serialize_trailing salt
                  (Buffer_toString_base64 key) k i extra w).
  assert (Hc : string_forall not_colon salt = true).
  { apply (string_forall_impl is_base64_char); [|exact Hsalt].
    intros c Hc. now apply base64_char_cases. }
  specialize (Hd (colon_free_cannot_start _ Hc)
                 (colon_free_cannot_start _ (base64_colon_free key))).
  assert (Hf : wrong_format
                 (EncryptedPassword.mk (VString salt)
                    (VString (Buffer_toString_base64 key))
                    (VNumber (Int k)) (VNumber (Int i))) = false).
  { unfold wrong_format.
    cbn [EncryptedPassword.salt EncryptedPassword.derivedKey
         EncryptedPassword.derivedKeyLength EncryptedPassword.iterations ToBoolean].
    assert (salt <> "") as Hne1.
    { intros ->. cbn [String.length] in Hlen. lia. }
    assert (Buffer_toString_base64 key <> "") as Hne2.
    { apply base64_nonempty. intros ->. cbn [List.length] in Hkey. lia. }
    apply String.eqb_neq in Hne1, Hne2. rewrite Hne1, Hne2.
    assert ((i =? 0) = false) as -> by (apply Z.eqb_neq; lia).
    assert ((k =? 0) = false) as -> by (apply Z.eqb_neq; lia).
    reflexivity. }
  rewrite (checkPassword_run _ _ _ _ _ _ Hd Hf).
  rewrite (checkPasswordSync_run _ _ _ _ _ _ Hd Hf).
  cbn [EncryptedPassword.salt EncryptedPassword.derivedKey
       EncryptedPassword.derivedKeyLength EncryptedPassword.iterations fst].
  rewrite Hkdf. cbn [StrictEquals]. rewrite String.eqb_refl.
  split; reflexivity.
Qed.

End Shape.

(** ** Encryption on the SHA-512 platform *)

Lemma base64_size_nonneg (n : Z) : 0 <= n -> 0 <= base64_size n.
Proof.
  intros H. unfold base64_size.
  pose proof (Z.div_pos (n + 2) 3 ltac:(lia) ltac:(lia)). lia.
Qed.

(** X13.  With PBKDF2-HMAC-SHA-512 behind it, encryption cannot fail on a
    configuration of a positive 32-bit iteration count, positive salt and
    key lengths whose record fits a string, and the digest ["sha512"]: for
    every password and every state of the world both forms return a
    record, the same one, and checking the password against that record
    answers [true] in both forms.  The default hasher is such a
    configuration. *)
Theorem sha512_encrypt_succeeds (self : Hasher.t) (password : string) (w : World) :
  sha512_ready self = true ->
  exists r w',
    @encryptPasswordSync node_platform self password w = (Normal r, w') /\
    @encryptPassword node_platform self password w = (Fulfilled r, w') /\
    forall w0,
      fst (@checkPassword node_platform self password (VString r) w0) =
        Fulfilled true /\
      fst (@checkPasswordSync node_platform self password (VString r) w0) =
        Normal true.
Proof.
  intros Hready.
  assert (Hrun : (exists r w',
             @encryptPasswordSync node_platform self password w = (Normal r, w'))
           /\ ToBoolean (Hasher.saltLength self) = true
           /\ ToBoolean (Hasher.derivedKeyLength self) = true).
  { unfold sha512_ready in Hready.
    unfold encryptPasswordSync, bind.
    destruct (Hasher.iterations self) as [| | | [|i] | |]; try discriminate.
    destruct (Hasher.saltLength self) as [| | | [|n] | |]; try discriminate.
    destruct (Hasher.derivedKeyLength self) as [| | | [|k] | |];
      try discriminate.
    destruct (Hasher.digest self) as [| | | | d |]; try discriminate.
    repeat (apply andb_true_iff in Hready as [Hready ?]).
    match goal with
    | Hd : (d =? "sha512")%string = true |- _ => rename Hd into Hdig
    end.
    match goal with
    | Hf : (_ + _ + 26 <=? _) = true |- _ =>
        apply Z.leb_le in Hf; rename Hf into Hfit
    end.
    assert (Hn : 0 < n) by (apply Z.ltb_lt; assumption).
    assert (Hk : 0 < k) by (apply Z.ltb_lt; assumption).
    pose proof (base64_size_nonneg n ltac:(lia)) as Bn.
    pose proof (base64_size_nonneg k ltac:(lia)) as Bk.
    pose proof (fitting_size_granted n ltac:(lia) ltac:(lia)) as Gn.
    pose proof (fitting_size_granted k ltac:(lia) ltac:(lia)) as Gk.
    split; [|split; cbn [ToBoolean]; apply negb_true_iff, Z.eqb_neq; lia].
    rewrite uid_run by exact Gn.
    unfold pbkdf2Sync, ret. cbn [PBKDF2 node_platform]. unfold sha512_PBKDF2.
    rewrite Hdig. cbn [negb].
    assert ((0 <? i) && (i <=? MAX_INT32) && (0 <=? k) && (k <=? MAX_INT32)
            = true) as ->.
    { repeat (apply andb_true_iff; split); try assumption;
        apply Z.leb_le; lia. }
    assert ((k =? 0) = false) as -> by (apply Z.eqb_neq; lia).
    eexists _, _. reflexivity. }
  destruct Hrun as ((r & w' & Hrun) & Hs & Hk). exists r, w'.
  split; [exact Hrun|]. split.
  - apply (@encrypt_success_forms node_platform). exact Hrun.
  - intros w0.
    apply (@accepts_original node_platform sha512_contract self self);
      auto.
    left. exists w, w'. exact Hrun.
Qed.

(** ** Leniency of the numeric fields *)

Lemma string_forall_append (p : ascii -> bool) (s t : string) :
  string_forall p (s ++ t) = string_forall p s && string_forall p t.
Proof.
  induction s as [|c s IH]; cbn [append string_forall]; [reflexivity|].
  rewrite IH. now rewrite andb_assoc.
Qed.

(** Digits followed by a text that does not start with a digit. *)
Lemma digit_prefix_append (ds junk : string) :
  string_forall is_digit ds = true ->
  digit_prefix junk = "" ->
  digit_prefix (ds ++ junk) = ds.
Proof.
  intros Hds Hj. induction ds as [|c ds IH]; [exact Hj|].
  cbn [string_forall] in Hds. apply andb_true_iff in Hds as [Hc Hds].
  cbn [append digit_prefix]. rewrite Hc, IH by exact Hds. reflexivity.
Qed.

Lemma parse_digits_numeral_append (d : Decimal.uint) (junk : string) :
  d <> Decimal.Nil ->
  digit_prefix junk = "" ->
  parse_digits (NilEmpty.string_of_uint d ++ junk) = Int (Z.of_uint d).
Proof.
  intros Hd Hj. unfold parse_digits.
  rewrite digit_prefix_append by (auto using digits_of_uint).
  apply string_of_uint_nonempty, String.eqb_neq in Hd. rewrite Hd.
  now rewrite NilEmpty.usu.
Qed.

Lemma parseInt_Number_toString_append (z : Z) (junk : string) :
  digit_prefix junk = "" ->
  parseInt (VString (Number_toString (Int z) ++ junk)) = Int z.
Proof.
  intros Hj.
  destruct z as [|p|p]; cbn [Number_toString Z.to_int NilZero.string_of_int].
  - change (NilZero.string_of_uint (Decimal.D0 Decimal.Nil) ++ junk)
      with (String "0" junk).
    unfold parseInt. cbn [ToString trim_start].
    change (is_white_space "0") with false. cbv iota.
    cbn [Ascii.eqb Bool.eqb]. cbv iota.
    unfold parse_digits. cbn [digit_prefix].
    change (is_digit "0") with true. cbv iota. rewrite Hj. reflexivity.
  - rewrite string_of_pos. unfold parseInt. cbn [ToString].
    pose proof (digits_of_uint (Pos.to_uint p)) as Hall.
    pose proof (string_of_uint_nonempty _ (Unsigned.to_uint_nonnil p)) as Hne.
    pose proof (parse_digits_numeral_append (Pos.to_uint p) junk
                  (Unsigned.to_uint_nonnil p) Hj) as Hp.
    destruct (NilEmpty.string_of_uint (Pos.to_uint p)) as [|c s]; [congruence|].
    cbn [string_forall] in Hall. apply andb_true_iff in Hall as [Hc _].
    destruct (is_digit_cases c Hc) as (Hw & Hm & Hpl & _).
    cbn [append trim_start] in *. rewrite Hw, Hm, Hpl, Hp.
    now rewrite of_uint_pos.
  - rewrite string_of_pos. unfold parseInt. cbn [ToString append trim_start].
    change (is_white_space "-") with false. cbn [Ascii.eqb Bool.eqb].
    rewrite parse_digits_numeral_append
      by (auto using Unsigned.to_uint_nonnil).
    now rewrite of_uint_pos.
Qed.

(** X14.  The numeric fields are read up to their first character that is
    not a digit: a valid record still deserializes to itself when any
    colon-free text that does not start with a digit, such as ["abc"] or
    [" "], is written behind its derived-key length and behind its
    iteration count. *)
Theorem numeric_fields_ignore_suffix (r : EncryptedPassword.t)
  (junk1 junk2 : string) (w : World) :
  valid_record r = true ->
  digit_prefix junk1 = "" -> string_forall not_colon junk1 = true ->
  digit_prefix junk2 = "" -> string_forall not_colon junk2 = true ->
  deserializeEncryptedPassword
    (VString (ToString (EncryptedPassword.salt r) ++ "::" ++
              ToString (EncryptedPassword.derivedKey r) ++ "::" ++
              (ToString (EncryptedPassword.derivedKeyLength r) ++ junk1) ++ "::" ++
              (ToString (EncryptedPassword.iterations r) ++ junk2))) w =
  (Normal r, w).
Proof.
  intros H Hd1 Hc1 Hd2 Hc2.
  destruct (valid_record_fields r H) as (salt & key & k & i & -> & Hs & Hk).
  unfold deserializeEncryptedPassword, ret.
  cbn [EncryptedPassword.salt EncryptedPassword.derivedKey
       EncryptedPassword.derivedKeyLength EncryptedPassword.iterations ToString].
  assert (Hcol : forall z junk, string_forall not_colon junk = true ->
                 string_forall not_colon (Number_toString (Int z) ++ junk) = true).
  { intros z junk Hj.
    now rewrite string_forall_append, Number_toString_colon_free, Hj. }
  rewrite split_four_fields; auto using colon_free_cannot_start, colon_free_includes.
  unfold item. cbn [nth_error].
  now rewrite !parseInt_Number_toString_append.
Qed.

(** ** Encrypting twice *)

Lemma append_same_length (a b x y : string) :
  String.length a = String.length b -> a ++ x = b ++ y -> a = b.
Proof.
  revert b. induction a as [|c a IH]; intros [|d b] Hlen E;
    try discriminate Hlen; [reflexivity|].
  cbn [append] in E. inversion E; subst. f_equal. apply IH; auto.
Qed.

Section Twice.

Context {P : Platform}.

(** X15.  Two encryptions run one after the other draw their salts from
    consecutive stretches of the entropy source, and the salt leads the
    record: if the two records are equal, the second stretch repeats the
    first on all its whole groups of three bytes.  Draws that differ there
    give different records, whatever the password. *)
Theorem successive_records (self : Hasher.t) (password r1 r2 : string)
  (w w1 w2 : World) :
  encryptPasswordSync self password w = (Normal r1, w1) ->
  encryptPasswordSync self password w1 = (Normal r2, w2) ->
  r1 = r2 ->
  exists n,
    Hasher.saltLength self = VNumber (Int n) /\ 0 <= n /\
    forall j, (j < 3 * (Z.to_nat n / 4))%nat ->
              entropy w j = entropy w (Z.to_nat n + j)%nat.
Proof.
  intros H1 H2 E.
  unfold encryptPasswordSync, bind in H1, H2.
  destruct (uid (Hasher.saltLength self) w) as [[s1|e] wa] eqn:Hu1;
    [|discriminate H1].
  destruct (uid (Hasher.saltLength self) w1) as [[s2|e] wb] eqn:Hu2;
    [|discriminate H2].
  apply uid_inv in Hu1 as (n & Hn & [Hn0 _] & Hs1 & ->).
  apply uid_inv in Hu2 as (n' & Hn' & _ & Hs2 & ->).
  rewrite Hn in Hn'. inversion Hn'; subst n'; clear Hn'.
  unfold pbkdf2Sync, ret in H1, H2.
  destruct (PBKDF2 _ _ _ _ _) as [e|k1] in H1; [discriminate H1|].
  destruct (PBKDF2 _ _ _ _ _) as [e|k2] in H2; [discriminate H2|].
  injection H1 as Hr1 Hw1. injection H2 as Hr2 _.
  rewrite <- Hr1, <- Hr2 in E.
  unfold serializeEncryptedPassword in E.
  cbn [EncryptedPassword.salt ToString] in E.
  apply append_same_length in E;
    [|rewrite Hs1, Hs2, !token_length; reflexivity].
  exists n. split; [exact Hn|]. split; [exact Hn0|].
  rewrite Hs1, Hs2 in E.
  replace (draw (Z.to_nat n) w1) with (draw (Z.to_nat n) (consume (Z.to_nat n) w))
    in E by (rewrite <- Hw1; reflexivity).
  apply token_shows_whole_groups in E.
  intros j Hj. apply (E j Hj).
Qed.

End Twice.

(** ** Concrete runs of the further properties *)


Lemma supersecret_run :
  @encryptPasswordSync node_platform (NodePbkdf2 quick_options) "supersecret"
    sample_world =
  (Normal supersecret_record, after_supersecret "+///////////" sample_world).
Proof. vm_compute. reflexivity. Defined.

Lemma encrypt_effects_witness :
  (@encryptPasswordSync node_platform (NodePbkdf2 quick_options) "supersecret"
     sample_world =
   (Normal supersecret_record, after_supersecret "+///////////" sample_world) \/
   @encryptPassword node_platform (NodePbkdf2 quick_options) "supersecret"
     sample_world =
   (Fulfilled supersecret_record, after_supersecret "+///////////" sample_world)) /\
  exists n salt,
    Hasher.saltLength (NodePbkdf2 quick_options) = VNumber (Int n) /\ 0 <= n /\
    Z.of_nat (String.length salt) = n /\
    after_supersecret "+///////////" sample_world =
    log_call (encrypt_call (NodePbkdf2 quick_options) "supersecret" salt)
      (consume (Z.to_nat n) sample_world).
Proof.
  split; [left; exact supersecret_run|].
  exact (@encrypt_effects node_platform (NodePbkdf2 quick_options)
           "supersecret" supersecret_record sample_world _
           (or_introl supersecret_run)).
Defined.

Lemma encrypt_refuses_bad_salt_length_witness :
  accepted_size (Hasher.saltLength (NodePbkdf2 negative_salt_options)) = false /\
  exists e,
    @encryptPasswordSync node_platform (NodePbkdf2 negative_salt_options)
      "supersecret" sample_world = (Throw e, sample_world) /\
    @encryptPassword node_platform (NodePbkdf2 negative_salt_options)
      "supersecret" sample_world = (Rejected e, sample_world).
Proof.
  split; [reflexivity|].
  apply (@encrypt_refuses_bad_salt_length node_platform). reflexivity.
Defined.

Lemma worlds_agree_on_nine : same_entropy 9 sample_world other_world.
Proof.
  intros i Hi.
  do 9 (destruct i as [|i]; [reflexivity|]). lia.
Defined.

Lemma uid_uses_three_quarters_witness :
  (0 <= 12 /\
   same_entropy (Z.to_nat ((3 * 12 + 3) / 4)) sample_world other_world) /\
  fst (@uid node_platform (VNumber (Int 12)) sample_world) =
  fst (@uid node_platform (VNumber (Int 12)) other_world).
Proof.
  split; [split; [discriminate|exact worlds_agree_on_nine]|].
  apply (@uid_uses_three_quarters node_platform 12 sample_world other_world).
  - discriminate.
  - exact worlds_agree_on_nine.
Defined.

Lemma uid_shows_whole_groups_witness :
  (@uid node_platform (VNumber (Int 12)) sample_world =
     (Normal "+///////////", consume 12 sample_world) /\
   @uid node_platform (VNumber (Int 12)) other_world =
     (Normal "+///////////", consume 12 other_world)) /\
  same_entropy (Z.to_nat (3 * (12 / 4))) sample_world other_world.
Proof.
  split; [split; reflexivity|].
  exact (@uid_shows_whole_groups node_platform 12 "+///////////"
           sample_world (consume 12 sample_world)
           other_world (consume 12 other_world) eq_refl eq_refl).
Defined.

Lemma trailing_fields_ignored_witness :
  valid_record test_record = true /\
  deserializeEncryptedPassword
    (VString (serializeEncryptedPassword test_record ++ "::" ++ "junk"))
    sample_world = (Normal test_record, sample_world).
Proof.
  split; [reflexivity|].
  apply (trailing_fields_ignored test_record "junk" sample_world). reflexivity.
Defined.

Lemma serialize_injective_witness :
  (valid_record test_record = true /\
   valid_record (EncryptedPassword.mk (VString "erwrw/+99")
                   (VString "qzeqzr++p//r") (VNumber (Int (10 + 2)))
                   (VNumber (Int (10 * 100)))) = true /\
   serializeEncryptedPassword test_record =
   serializeEncryptedPassword
     (EncryptedPassword.mk (VString "erwrw/+99") (VString "qzeqzr++p//r")
        (VNumber (Int (10 + 2))) (VNumber (Int (10 * 100))))) /\
  test_record =
  EncryptedPassword.mk (VString "erwrw/+99") (VString "qzeqzr++p//r")
    (VNumber (Int (10 + 2))) (VNumber (Int (10 * 100))).
Proof.
  split; [repeat split; reflexivity|].
  apply serialize_injective; reflexivity.
Defined.

Lemma produced_record_shape_witness :
  @produces node_platform (NodePbkdf2 quick_options) "supersecret"
    supersecret_record /\
  exists n k i salt key,
    Hasher.saltLength (NodePbkdf2 quick_options) = VNumber (Int n) /\
    Hasher.derivedKeyLength (NodePbkdf2 quick_options) = VNumber (Int k) /\
    Hasher.iterations (NodePbkdf2 quick_options) = VNumber (Int i) /\
    0 <= n /\ 0 <= k /\ 0 < i /\
    supersecret_record =
      salt ++ "::" ++ key ++ "::" ++ Number_toString (Int k) ++ "::" ++
      Number_toString (Int i) /\
    Z.of_nat (String.length salt) = n /\
    String.length key = (4 * ((Z.to_nat k + 2) / 3))%nat.
Proof.
  split; [exact supersecret_produced|].
  exact (@produced_record_shape node_platform sha512_contract
           (NodePbkdf2 quick_options) "supersecret" supersecret_record
           supersecret_produced).
Defined.

Lemma trailing_field_still_verifies_witness :
  let self := NodePbkdf2 quick_options in
  @produces node_platform self "supersecret" supersecret_record /\
  fst (@checkPassword node_platform self "supersecret"
         (VString (supersecret_record ++ "::" ++ "junk")) sample_world) =
    Fulfilled true /\
  fst (@checkPasswordSync node_platform self "supersecret"
         (VString (supersecret_record ++ "::" ++ "junk")) sample_world) =
    Normal true.
Proof.
  intros self. split; [exact supersecret_produced|].
  exact (@trailing_field_still_verifies node_platform sha512_contract
           quick_options "supersecret" supersecret_record "junk" sample_world
           supersecret_produced).
Defined.

Lemma sha512_encrypt_succeeds_witness :
  sha512_ready (NodePbkdf2 VUndefined) = true /\
  exists r w',
    @encryptPasswordSync node_platform (NodePbkdf2 VUndefined) "supersecret"
      sample_world = (Normal r, w') /\
    @encryptPassword node_platform (NodePbkdf2 VUndefined) "supersecret"
      sample_world = (Fulfilled r, w') /\
    forall w0,
      fst (@checkPassword node_platform (NodePbkdf2 VUndefined) "supersecret"
             (VString r) w0) = Fulfilled true /\
      fst (@checkPasswordSync node_platform (NodePbkdf2 VUndefined)
             "supersecret" (VString r) w0) = Normal true.
Proof.
  split; [reflexivity|].
  exact (sha512_encrypt_succeeds (NodePbkdf2 VUndefined) "supersecret"
           sample_world eq_refl).
Defined.

Lemma numeric_fields_ignore_suffix_witness :
  (valid_record test_record = true /\
   digit_prefix "abc" = "" /\ string_forall not_colon "abc" = true /\
   digit_prefix " " = "" /\ string_forall not_colon " " = true) /\
  deserializeEncryptedPassword
    (VString "erwrw/+99::qzeqzr++p//r::12abc::1000 ") sample_world =
  (Normal test_record, sample_world).
Proof.
  split; [repeat split; reflexivity|].
  exact (numeric_fields_ignore_suffix test_record "abc" " " sample_world
           eq_refl eq_refl eq_refl eq_refl eq_refl).
Defined.

Lemma constant_run_first :
  @encryptPasswordSync node_platform (NodePbkdf2 quick_options) "supersecret"
    constant_world =
  (Normal constant_record, after_supersecret "////////////" constant_world).
Proof. vm_compute. reflexivity. Defined.

Lemma constant_run_second :
  @encryptPasswordSync node_platform (NodePbkdf2 quick_options) "supersecret"
    (after_supersecret "////////////" constant_world) =
  (Normal constant_record,
   after_supersecret "////////////"
     (after_supersecret "////////////" constant_world)).
Proof. vm_compute. reflexivity. Defined.

Lemma successive_records_witness :
  (@encryptPasswordSync node_platform (NodePbkdf2 quick_options) "supersecret"
     constant_world =
   (Normal constant_record, after_supersecret "////////////" constant_world) /\
   @encryptPasswordSync node_platform (NodePbkdf2 quick_options) "supersecret"
     (after_supersecret "////////////" constant_world) =
   (Normal constant_record,
    after_supersecret "////////////"
      (after_supersecret "////////////" constant_world)) /\
   constant_record = constant_record) /\
  exists n,
    Hasher.saltLength (NodePbkdf2 quick_options) = VNumber (Int n) /\ 0 <= n /\
    forall j, (j < 3 * (Z.to_nat n / 4))%nat ->
              entropy constant_world j = entropy constant_world (Z.to_nat n + j)%nat.
Proof.
  split;
    [split; [exact constant_run_first|];
     split; [exact constant_run_second|reflexivity]|].
  exact (@successive_records node_platform (NodePbkdf2 quick_options)
           "supersecret" constant_record constant_record
           constant_world _ _ constant_run_first constant_run_second eq_refl).
Defined.
